(** * codeface: the pool worker and the one-shot deploy client

    A shallow embedding of [worker/worker.go] and [cmd/cf-client/main.go].

    The worker talks to a remote platform through the [editor] package and
    to the file system through [os.Stat]; both are outside the two files
    embedded here, so they appear as the operations of a [Platform]
    interface over an abstract world.  Every function of the worker is a
    computation that threads the world, may panic, and emits the sequence
    of observable events (log lines, remote calls, timer operations) it
    performs, in program order. *)

From Stdlib Require Import ZArith List String Bool Lia.
Import ListNotations.

Local Open Scope string_scope.
Local Open Scope list_scope.
Local Open Scope Z_scope.

(** ** Go preliminaries *)

(** Go's [int] on the 64-bit targets: a two's-complement 64-bit integer. *)
Definition int_min : Z := - 2 ^ 63.
Definition int_max : Z := 2 ^ 63 - 1.

Definition in_int (z : Z) : Prop := int_min <= z <= int_max.

(** Wrap-around of an exact result into the range of [int]. *)
Definition wrap (z : Z) : Z := (z + 2 ^ 63) mod 2 ^ 64 - 2 ^ 63.

Definition int_sub (a b : Z) : Z := wrap (a - b).

(** [len(s)] of a slice, as an [int]. *)
Definition len {A : Type} (s : list A) : Z := Z.of_nat (List.length s).

(** The [error] interface: [None] is [nil], [Some msg] an error value. *)
Definition error : Type := string.

(** What a computation can come to: a normal return, a run-time panic, or
    a goroutine that waits for ever on a [select]. *)
Inductive outcome (A : Type) : Type :=
| Ret (a : A)
| Panic (msg : string)
| Blocked.
Arguments Ret {A} a.
Arguments Panic {A} msg.
Arguments Blocked {A}.

(** [s[0:n]] on a slice whose capacity is its length: a run-time panic
    when [n] is negative or beyond the capacity. *)
Definition slice_to {A : Type} (s : list A) (n : Z) : outcome (list A) :=
  if n <? 0 then Panic "slice bounds out of range"
  else if n >? len s then Panic "slice bounds out of range"
  else Ret (firstn (Z.to_nat n) s).

(** ** The worker *)

Module Worker.

(** [heroku.App], reduced to the field that identifies an instance. *)
Record App : Type := { Name : string }.

(** [worker.Config].  [CheckInterval] is a [time.Duration], an [int64]
    count of nanoseconds. *)
Record Config : Type := {
  HerokuAPIKey : string;
  BatchSize : Z;
  PoolSize : Z;
  CheckInterval : Z;
  TemplateDir : string
}.

(** The error of an [os.Stat] call, as far as [os.IsNotExist] tells them
    apart. *)
Inductive StatErr : Type :=
| ErrNotExist
| ErrPermission
| ErrOther (msg : string).

(** [os.IsNotExist(err)]; it is false on a nil error. *)
Definition IsNotExist (err : option StatErr) : bool :=
  match err with
  | Some ErrNotExist => true
  | _ => false
  end.

(** The two wake-ups of the [select] in [Start]. *)
Inductive Signal : Type :=
| Tick   (* a value arrives on [t.C] *)
| Done.  (* [ctx.Done()] is closed *)

(** The observable events of a run. *)
Inductive Event : Type :=
| LogInfo (msg : string)                  (* [logger.Info(msg)] *)
| LogNum (num : Z) (msg : string)         (* [logger.WithField("num", num).Info(msg)] *)
| LogErr (err : error) (msg : string)     (* [logger.WithError(err).Info(msg)] *)
| Stat (path : string)                    (* [os.Stat(path)] *)
| ListApps                                (* [editor.AllIdledApps] *)
| Deploy                                  (* one [DeployEditorAndScaleDown] started *)
| Delete (app : App) (res : option error) (* [editor.DeleteApp] and how the deletion went *)
| TickerNew (d : Z)                       (* [time.NewTicker(d)] *)
| TickerStop                              (* [t.Stop()] *)
| Select (s : Signal).                    (* the [select] woke up on [s] *)

Definition is_remote (e : Event) : bool :=
  match e with
  | ListApps | Deploy | Delete _ _ => true
  | _ => false
  end.

Definition is_list (e : Event) : bool :=
  match e with
  | ListApps => true
  | _ => false
  end.

Definition is_deploy (e : Event) : bool :=
  match e with
  | Deploy => true
  | _ => false
  end.

(** Number of listing calls, number of deploys started, and the instances
    handed to [DeleteApp], in order. *)
Definition listings (t : list Event) : nat := List.length (filter is_list t).
Definition deploys (t : list Event) : nat := List.length (filter is_deploy t).

Fixpoint deleted (t : list Event) : list App :=
  match t with
  | [] => []
  | Delete a _ :: t' => a :: deleted t'
  | _ :: t' => deleted t'
  end.

(** The signals the [select] woke up on, in order. *)
Fixpoint wakeups (t : list Event) : list Signal :=
  match t with
  | [] => []
  | Select s :: t' => s :: wakeups t'
  | _ :: t' => wakeups t'
  end.

(** The collaborators of the worker.  The world [W] holds everything the
    worker does not: the remote pool, the file system, the state of the
    context, and the scheduling of goroutines. *)
Class Platform (W : Type) : Type := {
  (** [os.Stat(path)]: the error it returns. *)
  os_Stat : string -> W -> option StatErr * W;
  (** [editor.AllIdledApps(ctx, heroku)]: the instances of the current
      version, those of any other version, and the error. *)
  AllIdledApps : W -> (list App * list App * option error) * W;
  (** [editor.DeleteApp(heroku, &app, logger)].  The call is a statement
      in the worker, so nothing of its result reaches the worker; the
      value here is how the deletion went on the platform. *)
  DeleteApp : App -> W -> option error * W;
  (** What [g.Run()] returns on a group of [n > 0] deploy actors that
      share one cancellable context. *)
  runDeploys : nat -> W -> option error * W
}.

Section WithPlatform.

Context {W : Type} `{Platform W}.

(** Computations: world in; outcome, world and emitted events out. *)
Definition M (A : Type) : Type := W -> outcome A * W * list Event.

Definition ret {A : Type} (a : A) : M A := fun w => (Ret a, w, []).

Definition bind {A B : Type} (m : M A) (f : A -> M B) : M B :=
  fun w =>
    let '(o, w1, t1) := m w in
    match o with
    | Ret a => let '(o2, w2, t2) := f a w1 in (o2, w2, t1 ++ t2)
    | Panic msg => (Panic msg, w1, t1)
    | Blocked => (Blocked, w1, t1)
    end.

Definition emit (e : Event) : M unit := fun w => (Ret tt, w, [e]).

Definition panic {A : Type} (msg : string) : M A := fun w => (Panic msg, w, []).

Definition blocked {A : Type} : M A := fun w => (Blocked, w, []).

Definition lift {A : Type} (o : outcome A) : M A := fun w => (o, w, []).

(** A call to a collaborator, with the event that records it. *)
Definition call {A : Type} (e : Event) (op : W -> A * W) : M A :=
  fun w => let '(a, w1) := op w in (Ret a, w1, [e]).

(** [defer d; body]: [d] runs when [body] returns or panics. *)
Definition defer {A : Type} (d : Event) (body : M A) : M A :=
  fun w =>
    let '(o, w1, t1) := body w in
    match o with
    | Blocked => (Blocked, w1, t1)
    | _ => (o, w1, t1 ++ [d])
    end.

Notation "x <- m ;; k" := (bind m (fun x => k))
  (at level 61, m at next level, right associativity).
Notation "m ;;; k" := (bind m (fun _ => k))
  (at level 61, right associativity).

Definition events {A : Type} (r : outcome A * W * list Event) : list Event := snd r.
Definition result {A : Type} (r : outcome A * W * list Event) : outcome A := fst (fst r).
Definition world {A : Type} (r : outcome A * W * list Event) : W := snd (fst r).

(** *** [run.Group] *)

(** The one actor the worker puts in a group: [execute] deploys an editor
    and scales it down under the shared context, [interrupt] cancels that
    context. *)
Inductive Actor : Type := DeployActor.

Definition Group : Type := list Actor.

Definition Group_Add (g : Group) (a : Actor) : Group := g ++ [a].

(** [g.Run()] of the package [github.com/oklog/run], which is not part of
    the repository.  On a group without actors [Run] returns nil at once.
    Otherwise it starts every actor in a goroutine of its own; what it
    then returns depends on how the deploys interleave and is left to the
    platform. *)
Definition Group_Run (g : Group) : M (option error) :=
  match g with
  | [] => ret None
  | _ :: _ =>
      fun w =>
        let '(err, w1) := runDeploys (List.length g) w in
        (Ret err, w1, map (fun _ => Deploy) g)
  end.

(** *** [addAppsToPool] *)

(** Lines 102-106: [i := PoolSize - len(currentVersion); n := BatchSize;
    if n > i { n = i }]. *)
Definition add_count (poolSize batchSize currentCount : Z) : Z :=
  let i := int_sub poolSize currentCount in
  let n := batchSize in
  if n >? i then i else n.

(** Lines 111-119: [for j := 0; j < n; j++ { g.Add(...) }].  [fuel] bounds
    the number of iterations; [None] when it runs out before the loop
    condition fails. *)
Fixpoint add_loop (fuel : nat) (j n : Z) (g : Group) : option Group :=
  if j <? n then
    match fuel with
    | O => None
    | S fuel' => add_loop fuel' (j + 1) n (Group_Add g DeployActor)
    end
  else Some g.

Definition deploy_group (n : Z) : option Group :=
  add_loop (Z.to_nat n) 0 n [].

Definition addAppsToPool (cfg : Config) : M (option error) :=
  r <- call ListApps AllIdledApps ;;
  let '(currentVersion, _, err) := r in
  match err with
  | Some e => ret (Some e)
  | None =>
      let n := add_count (PoolSize cfg) (BatchSize cfg) (len currentVersion) in
      emit (LogNum n "Adding apps to pool") ;;;
      match deploy_group n with
      | None => blocked
      | Some g =>
          err <- Group_Run g ;;
          match err with
          | Some e => ret (Some e)
          | None => ret None
          end
      end
  end.

(** *** [removeOutdatedApps] *)

(** Lines 82-86: [i := len(otherVersion); n := BatchSize; if n > i { n = i }]. *)
Definition remove_count (batchSize otherCount : Z) : Z :=
  let i := otherCount in
  let n := batchSize in
  if n >? i then i else n.

(** Lines 89-91: [for _, app := range apps { editor.DeleteApp(...) }]. *)
Fixpoint delete_each (apps : list App) : M unit :=
  match apps with
  | [] => ret tt
  | app :: rest =>
      fun w =>
        let '(res, w1) := DeleteApp app w in
        let '(o, w2, t) := delete_each rest w1 in
        (o, w2, Delete app res :: t)
  end.

Definition removeOutdatedApps (cfg : Config) : M (option error) :=
  r <- call ListApps AllIdledApps ;;
  let '(_, otherVersion, err) := r in
  match err with
  | Some e => ret (Some e)
  | None =>
      let n := remove_count (BatchSize cfg) (len otherVersion) in
      emit (LogNum n "Removing outdated apps from pool") ;;;
      apps <- lift (slice_to otherVersion n) ;;
      delete_each apps ;;;
      ret None
  end.

(** *** [Start] *)

(** Lines 57-59 of the closure [work]: the removal phase with its log. *)
Definition removal_phase (cfg : Config) : M unit :=
  err <- removeOutdatedApps cfg ;;
  match err with
  | Some e => emit (LogErr e "Fail to remove outdated apps from pool")
  | None => ret tt
  end.

(** The closure [work] of [Start]: one reconciliation cycle. *)
Definition work (cfg : Config) : M unit :=
  err <- addAppsToPool cfg ;;
  match err with
  | Some e => emit (LogErr e "Fail to add apps to pool")
  | None => removal_phase cfg
  end.

(** [time.NewTicker(d)] panics on a non-positive duration. *)
Definition NewTicker (d : Z) : M unit :=
  if d <=? 0 then panic "non-positive interval for NewTicker"
  else emit (TickerNew d).

(** Lines 66-73: the [for { select { ... } }] loop, driven by the sequence
    of wake-ups of its [select].  When the sequence is used up the loop
    waits for ever. *)
Fixpoint loop (cfg : Config) (sel : list Signal) : M (option error) :=
  match sel with
  | [] => blocked
  | Tick :: rest => emit (Select Tick) ;;; work cfg ;;; loop cfg rest
  | Done :: _ => emit (Select Done) ;;; ret None
  end.

Definition not_exist_msg (dir : string) : error :=
  String.append "template directory " (String.append dir " does not exist").

Definition Start (cfg : Config) (sel : list Signal) : M (option error) :=
  emit (LogInfo "Starting worker") ;;;
  err <- call (Stat (TemplateDir cfg)) (os_Stat (TemplateDir cfg)) ;;
  if IsNotExist err then ret (Some (not_exist_msg (TemplateDir cfg)))
  else
    NewTicker (CheckInterval cfg) ;;;
    defer TickerStop (work cfg ;;; loop cfg sel).

End WithPlatform.

End Worker.

(** ** A scripted platform

    A world that answers from a script: the error of [os.Stat], the
    answers of the successive listing calls, the instances whose deletion
    fails, and the value [g.Run()] comes back with.  It is the platform
    at which the theorems below are instantiated. *)

Module Scripted.
Import Worker.

Record Script : Type := {
  stat_err : option StatErr;
  listing : list (list App * list App * option error);
  delete_err : App -> option error;
  run_err : option error
}.

Definition next_listing (w : Script)
  : (list App * list App * option error) * Script :=
  match listing w with
  | [] => (([], [], Some "listing failed"), w)
  | r :: rest =>
      (r, {| stat_err := stat_err w; listing := rest;
             delete_err := delete_err w; run_err := run_err w |})
  end.

#[export] Instance scripted : Platform Script := {
  os_Stat := fun _ w => (stat_err w, w);
  AllIdledApps := next_listing;
  DeleteApp := fun a w => (delete_err w a, w);
  runDeploys := fun _ w => (run_err w, w)
}.

Definition app (s : string) : App := {| Name := s |}.

Definition cfg0 : Config :=
  {| HerokuAPIKey := "key"; BatchSize := 2; PoolSize := 5;
     CheckInterval := 60000000000; TemplateDir := "template" |}.

Definition five : list App := [app "c1"; app "c2"; app "c3"; app "c4"; app "c5"].

Definition three : list App := [app "c1"; app "c2"; app "c3"].

Definition stale : list App := [app "old1"; app "old2"; app "old3"].

(** Every deletion fails. *)
Definition always_fails (a : App) : option error := Some "delete failed".

Definition never_fails (a : App) : option error := None.

(** Three current instances, nothing outdated: the pool is two short. *)
Definition w_short : Script :=
  {| stat_err := None;
     listing := [(three, [], None); (three, [], None)];
     delete_err := never_fails; run_err := None |}.

(** A full pool whose first listing shows nothing outdated and whose
    second listing shows one outdated instance. *)
Definition w_shift : Script :=
  {| stat_err := None;
     listing := [(five, [], None); (five, [app "old1"], None)];
     delete_err := never_fails; run_err := None |}.

(** A full pool with three outdated instances, none of which can be
    deleted. *)
Definition w_stale : Script :=
  {| stat_err := None;
     listing := [(five, stale, None); (five, stale, None)];
     delete_err := always_fails; run_err := None |}.

(** The template directory cannot be read: [os.Stat] fails on a
    permission error.  The platform itself is unreachable. *)
Definition w_denied : Script :=
  {| stat_err := Some ErrPermission; listing := [];
     delete_err := never_fails; run_err := None |}.

(** A full pool with three outdated instances on a platform that answers
    one listing call and fails the next. *)
Definition w_once : Script :=
  {| stat_err := None;
     listing := [(five, stale, None)];
     delete_err := never_fails; run_err := None |}.

(** The template directory does not exist. *)
Definition w_missing : Script :=
  {| stat_err := Some ErrNotExist;
     listing := [(five, stale, None)];
     delete_err := never_fails; run_err := None |}.

End Scripted.

(** ** The one-shot deploy client *)

Module CfClient.

(** How the process ends: exit status, what went to standard output, and
    what the logger wrote. *)
Record Process : Type := {
  status : Z;
  stdout : string;
  logged : list string
}.

(** [log.Fatal] and [log.Fatalf]: write the entry, then [os.Exit(1)]. *)
Definition Fatal (msg : string) : Process :=
  {| status := 1; stdout := ""; logged := [msg] |}.

Definition newline : string := String (Ascii.ascii_of_nat 10) EmptyString.

(** [fmt.Printf("Visit %s\n", url)]. *)
Definition visit (url : string) : string :=
  String.append "Visit " (String.append url newline).

(** [main], over the environment [getenv] ([os.Getenv], the empty string
    for an unset variable) and the deployer [Deploy] of the [codeface]
    package, which is given the token at construction, then the app, and
    returns the URL and an error. *)
Definition main (getenv : string -> string)
    (Deploy : string -> string -> string * option error) : Process :=
  let accessToken := getenv "HEROKU_API_TOKEN" in
  let app := getenv "HEROKU_APP" in
  if (accessToken =? "")%string || (app =? "")%string then
    Fatal "Provide HEROKU_API_TOKEN and HEROKU_APP"
  else
    let '(url, err) := Deploy accessToken app in
    match err with
    | Some e => Fatal e
    | None => {| status := 0; stdout := visit url; logged := [] |}
    end.

(** An environment with the two variables set to the given values. *)
Definition env (token app : string) (name : string) : string :=
  if (name =? "HEROKU_API_TOKEN")%string then token
  else if (name =? "HEROKU_APP")%string then app
  else "".

End CfClient.

(** ** [run.Group] over a race

    [Run] of the package [github.com/oklog/run] starts every actor in a
    goroutine of its own, waits for the first of them to return, calls the
    [interrupt] of every actor with the value that first one returned,
    waits for the others, and returns that first value.  Which actor
    returns first, and what each makes of the interruption, is the
    platform's to say: a [Race]. *)

Module RunGroup.
Import Worker.

(** One run of a group.  [winner] is the actor whose value is the first
    on the channel of the group.  [alone j] is what [execute] of actor [j]
    returns when nothing interrupts it: for a deploy actor, the error of
    [DeployEditorAndScaleDown] under a live context.  [interrupted j] is
    what it returns when [interrupt] is called while it is in flight: for a
    deploy actor, the error of [DeployEditorAndScaleDown] once the shared
    context is cancelled. *)
Record Race : Type := {
  winner : nat;
  alone : nat -> option error;
  interrupted : nat -> option error
}.

(** What [Run] does, in order. *)
Inductive Step : Type :=
| Started (j : nat)                       (* [go a.execute()] *)
| Returned (j : nat) (err : option error) (* a value arrives on the channel *)
| Interrupted (j : nat).                  (* [a.interrupt(err)]: [cancel()] *)

(** The value actor [j] returns in the race [r]. *)
Definition returned (r : Race) (j : nat) : option error :=
  if Nat.eqb j (winner r) then alone r j else interrupted r j.

(** The actors other than the winner. *)
Definition losers (n : nat) (r : Race) : list nat :=
  filter (fun j => negb (Nat.eqb j (winner r))) (seq 0 n).

(** [g.Run()] on a group of [n] actors: the value returned and the steps
    taken. *)
Definition Run (n : nat) (r : Race) : option error * list Step :=
  match n with
  | O => (None, [])
  | S _ =>
      let err := alone r (winner r) in
      (err,
       map Started (seq 0 n)
         ++ Returned (winner r) err
         :: map Interrupted (seq 0 n)
         ++ map (fun j => Returned j (interrupted r j)) (losers n r))
  end.

(** A platform whose [g.Run()] is [Run] over the race the world holds for
    the group; everything else is the platform [P]. *)
Definition with_race {W : Type} (P : Platform W)
    (race : nat -> W -> Race * W) : Platform W :=
  {| os_Stat := @os_Stat W P;
     AllIdledApps := @AllIdledApps W P;
     DeleteApp := @DeleteApp W P;
     runDeploys := fun n w =>
       let '(r, w1) := race n w in (fst (Run n r), w1) |}.

(** The first deploy succeeds; the other is cancelled in flight. *)
Definition first_wins : Race :=
  {| winner := 0;
     alone := fun _ => None;
     interrupted := fun _ => Some "context canceled" |}.

(** The first deploy to return fails. *)
Definition first_fails : Race :=
  {| winner := 1;
     alone := fun _ => Some "deploy failed";
     interrupted := fun _ => Some "context canceled" |}.

End RunGroup.

(** ** The capacity formulas as the specification words them *)

Definition additionsNeeded_spec (currentCount poolSize batchSize : Z) : Z :=
  Z.min batchSize (Z.max 0 (poolSize - currentCount)).

Definition removalsNeeded_spec (otherCount batchSize : Z) : Z :=
  Z.min batchSize otherCount.

(** The outdated instances of a listing result. *)
Definition outdated (r : list Worker.App * list Worker.App * option error)
  : list Worker.App := snd (fst r).

(** ** Further readings of a trace *)

(** Number of events of a trace that satisfy a test. *)
Definition count_ev (p : Worker.Event -> bool) (t : list Worker.Event) : nat :=
  List.length (filter p t).

Definition is_ticker_new (e : Worker.Event) : bool :=
  match e with
  | Worker.TickerNew _ => true
  | _ => false
  end.

Definition is_ticker_stop (e : Worker.Event) : bool :=
  match e with
  | Worker.TickerStop => true
  | _ => false
  end.

(** The events one cycle can be made of: the listing call, the start of a
    deploy, a deletion, and the two kinds of log line of the phases. *)
Definition is_cycle_event (e : Worker.Event) : bool :=
  match e with
  | Worker.ListApps | Worker.Deploy | Worker.Delete _ _
  | Worker.LogNum _ _ | Worker.LogErr _ _ => true
  | _ => false
  end.

Definition is_delete (e : Worker.Event) : bool :=
  match e with
  | Worker.Delete _ _ => true
  | _ => false
  end.

(** The events the scheduler loop can be made of: those of its cycles and
    the wake-ups of its [select]. *)
Definition is_loop_event (e : Worker.Event) : bool :=
  match e with
  | Worker.Select _ => true
  | _ => is_cycle_event e
  end.

Import Worker.

(** ** Arithmetic of the two counts *)

Lemma wrap_in_range (z : Z) : in_int z -> wrap z = z.
Proof.
  unfold in_int, int_min, int_max, wrap. intros Hz.
  rewrite Z.mod_small by lia. lia.
Qed.

Lemma add_count_exact (poolSize batchSize currentCount : Z) :
  in_int (poolSize - currentCount) ->
  add_count poolSize batchSize currentCount
  = Z.min batchSize (poolSize - currentCount).
Proof.
  intros Hr. unfold add_count, int_sub. rewrite (wrap_in_range _ Hr).
  destruct (Z.gtb_spec batchSize (poolSize - currentCount)); lia.
Qed.

Lemma remove_count_min (batchSize otherCount : Z) :
  remove_count batchSize otherCount = Z.min batchSize otherCount.
Proof.
  unfold remove_count.
  destruct (Z.gtb_spec batchSize otherCount); lia.
Qed.

(** The loop of [addAppsToPool] ends within [n - j] iterations, having
    added one actor per iteration. *)
Lemma add_loop_enough (fuel : nat) :
  forall (j n : Z) (g : Group),
    (Z.to_nat (n - j) <= fuel)%nat ->
    add_loop fuel j n g = Some (g ++ repeat DeployActor (Z.to_nat (n - j))).
Proof.
  induction fuel as [|fuel IH]; intros j n g Hf; simpl.
  - destruct (Z.ltb_spec j n) as [Hlt|Hge]; [lia|].
    replace (Z.to_nat (n - j)) with O by lia. simpl. now rewrite app_nil_r.
  - destruct (Z.ltb_spec j n) as [Hlt|Hge].
    + rewrite IH by lia. unfold Group_Add. rewrite <- app_assoc. simpl.
      replace (Z.to_nat (n - j)) with (S (Z.to_nat (n - (j + 1)))) by lia.
      reflexivity.
    + replace (Z.to_nat (n - j)) with O by lia. simpl. now rewrite app_nil_r.
Qed.

Lemma deploy_group_total (n : Z) :
  deploy_group n = Some (repeat DeployActor (Z.to_nat n)).
Proof.
  unfold deploy_group. rewrite add_loop_enough by lia.
  now rewrite Z.sub_0_r.
Qed.

(** ** Readings of a trace *)

Lemma listings_app (t1 t2 : list Event) :
  listings (t1 ++ t2) = (listings t1 + listings t2)%nat.
Proof. unfold listings. now rewrite filter_app, length_app. Qed.

Lemma listings_cons (e : Event) (t : list Event) :
  listings (e :: t) = ((if is_list e then 1 else 0) + listings t)%nat.
Proof. unfold listings. simpl. now destruct (is_list e). Qed.

Lemma deploys_cons (e : Event) (t : list Event) :
  deploys (e :: t) = ((if is_deploy e then 1 else 0) + deploys t)%nat.
Proof. unfold deploys. simpl. now destruct (is_deploy e). Qed.

Lemma deploys_app (t1 t2 : list Event) :
  deploys (t1 ++ t2) = (deploys t1 + deploys t2)%nat.
Proof. unfold deploys. now rewrite filter_app, length_app. Qed.

Lemma deleted_app (t1 t2 : list Event) :
  deleted (t1 ++ t2) = deleted t1 ++ deleted t2.
Proof.
  induction t1 as [|e t1 IH]; simpl; [reflexivity|].
  destruct e; simpl; now rewrite ?IH.
Qed.

Lemma deploys_started (g : Group) :
  deploys (map (fun _ => Deploy) g) = List.length g.
Proof.
  unfold deploys. induction g as [|a g IH]; simpl; [reflexivity|].
  now rewrite IH.
Qed.

Lemma deleted_started (g : Group) :
  deleted (map (fun _ => Deploy) g) = [].
Proof. induction g as [|a g IH]; simpl; auto. Qed.

Lemma listings_started (g : Group) :
  listings (map (fun _ => Deploy) g) = O.
Proof. unfold listings. induction g as [|a g IH]; simpl; auto. Qed.

Lemma wakeups_started (g : Group) :
  wakeups (map (fun _ => Deploy) g) = [].
Proof. induction g as [|a g IH]; simpl; auto. Qed.

Lemma wakeups_app (t1 t2 : list Event) :
  wakeups (t1 ++ t2) = wakeups t1 ++ wakeups t2.
Proof.
  induction t1 as [|e t1 IH]; simpl; [reflexivity|].
  destruct e; simpl; now rewrite ?IH.
Qed.

Section Properties.

Context {W : Type} `{Platform W}.

(** *** The removal loop *)

(** The loop over the instances to remove always runs to its end: it
    calls [DeleteApp] once per instance, in order, and nothing else. *)
Lemma delete_each_runs (apps : list App) :
  forall w : W, exists w' t,
    delete_each apps w = (Ret tt, w', t)
    /\ deleted t = apps
    /\ listings t = O
    /\ deploys t = O
    /\ wakeups t = []
    /\ List.length t = List.length apps.
Proof.
  induction apps as [|a apps IH]; intros w; simpl.
  - exists w, []. repeat split; reflexivity.
  - destruct (DeleteApp a w) as [res w1].
    destruct (IH w1) as (w' & t & E & Hd & Hl & Hp & Hs & Hn).
    rewrite E. exists w', (Delete a res :: t). simpl.
    rewrite Hd, Hs, Hn. repeat split; assumption.
Qed.

Lemma slice_to_ok {A : Type} (s : list A) (n : Z) :
  0 <= n <= len s -> slice_to s n = Ret (firstn (Z.to_nat n) s).
Proof.
  intros Hn. unfold slice_to.
  destruct (Z.ltb_spec n 0); [lia|].
  destruct (Z.gtb_spec n (len s)); [lia|]. reflexivity.
Qed.

Lemma remove_count_fits (batchSize : Z) (s : list App) :
  0 <= batchSize -> 0 <= remove_count batchSize (len s) <= len s.
Proof.
  intros Hb. rewrite remove_count_min. unfold len. lia.
Qed.

(** [removeOutdatedApps] after a listing that failed. *)
Lemma remove_listing_failed (cfg : Config) (w w1 : W)
    (cur oth : list App) (e : error) :
  AllIdledApps w = (cur, oth, Some e, w1) ->
  removeOutdatedApps cfg w = (Ret (Some e), w1, [ListApps]).
Proof.
  intros E. unfold removeOutdatedApps, bind, call, ret. rewrite E. reflexivity.
Qed.

(** [removeOutdatedApps] after a listing that succeeded. *)
Lemma remove_listing_ok (cfg : Config) (w w1 : W) (cur oth : list App) :
  AllIdledApps w = (cur, oth, None, w1) ->
  0 <= BatchSize cfg ->
  let n := remove_count (BatchSize cfg) (len oth) in
  exists w2 t,
    removeOutdatedApps cfg w
    = (Ret None, w2,
       ListApps :: LogNum n "Removing outdated apps from pool" :: t)
    /\ deleted t = firstn (Z.to_nat n) oth
    /\ listings t = O
    /\ deploys t = O
    /\ wakeups t = []
    /\ List.length t = Z.to_nat n.
Proof.
  intros E Hb n.
  pose proof (remove_count_fits (BatchSize cfg) oth Hb) as Hn. fold n in Hn.
  destruct (delete_each_runs (firstn (Z.to_nat n) oth) w1)
    as (w2 & t & Ed & Hd & Hl & Hp & Hs & Hlen).
  exists w2, t.
  unfold removeOutdatedApps, bind, call, ret, emit, lift. rewrite E.
  fold n. rewrite (slice_to_ok oth n Hn). rewrite Ed. simpl.
  rewrite app_nil_r. repeat split; try assumption.
  rewrite Hlen, length_firstn. unfold len in Hn. lia.
Qed.

(** *** The addition phase *)

(** [addAppsToPool] after a listing that failed. *)
Lemma add_listing_failed (cfg : Config) (w w1 : W)
    (cur oth : list App) (e : error) :
  AllIdledApps w = (cur, oth, Some e, w1) ->
  addAppsToPool cfg w = (Ret (Some e), w1, [ListApps]).
Proof.
  intros E. unfold addAppsToPool, bind, call, ret. rewrite E. reflexivity.
Qed.

(** [addAppsToPool] after a listing that succeeded: it logs the count,
    starts one deploy per actor of the group, and returns what the group
    returns. *)
Lemma add_listing_ok (cfg : Config) (w w1 : W) (cur oth : list App) :
  AllIdledApps w = (cur, oth, None, w1) ->
  let n := add_count (PoolSize cfg) (BatchSize cfg) (len cur) in
  let g := repeat DeployActor (Z.to_nat n) in
  exists err w2,
    addAppsToPool cfg w
    = (Ret err, w2,
       ListApps :: LogNum n "Adding apps to pool" :: map (fun _ => Deploy) g)
    /\ (n <= 0 -> err = None /\ w2 = w1).
Proof.
  intros E n g.
  unfold addAppsToPool, bind, call, ret, emit. rewrite E. fold n.
  rewrite deploy_group_total. fold g.
  destruct g as [|a g'] eqn:Eg.
  - exists None, w1. simpl. split; [reflexivity|auto].
  - unfold Group_Run.
    destruct (runDeploys (List.length (a :: g')) w1) as [err w2].
    exists err, w2. split.
    + destruct err; simpl; rewrite ?app_nil_r; reflexivity.
    + intros Hn. exfalso. subst g.
      replace (Z.to_nat n) with O in Eg by lia. discriminate.
Qed.

End Properties.

Section Cycle.

Context {W : Type} `{Platform W}.

(** *** One cycle *)

Lemma work_add_failed (cfg : Config) (w w1 : W) (t : list Event) (e : error) :
  addAppsToPool cfg w = (Ret (Some e), w1, t) ->
  work cfg w = (Ret tt, w1, t ++ [LogErr e "Fail to add apps to pool"]).
Proof.
  intros E. unfold work, bind. rewrite E. reflexivity.
Qed.

Lemma work_add_ok (cfg : Config) (w w1 : W) (t : list Event) :
  addAppsToPool cfg w = (Ret None, w1, t) ->
  work cfg w
  = (result (removal_phase cfg w1), world (removal_phase cfg w1),
     t ++ events (removal_phase cfg w1)).
Proof.
  intros E. unfold work, bind at 1. rewrite E.
  destruct (removal_phase cfg w1) as [[o w2] t2]. reflexivity.
Qed.

Lemma removal_phase_failed (cfg : Config) (w w1 : W)
    (cur oth : list App) (e : error) :
  AllIdledApps w = (cur, oth, Some e, w1) ->
  removal_phase cfg w
  = (Ret tt, w1,
     [ListApps; LogErr e "Fail to remove outdated apps from pool"]).
Proof.
  intros E. unfold removal_phase, bind.
  rewrite (remove_listing_failed cfg w w1 cur oth e E). reflexivity.
Qed.

Lemma removal_phase_ok (cfg : Config) (w w1 : W) (cur oth : list App) :
  AllIdledApps w = (cur, oth, None, w1) ->
  0 <= BatchSize cfg ->
  let n := remove_count (BatchSize cfg) (len oth) in
  exists w2 t,
    removal_phase cfg w
    = (Ret tt, w2,
       ListApps :: LogNum n "Removing outdated apps from pool" :: t)
    /\ deleted t = firstn (Z.to_nat n) oth
    /\ listings t = O
    /\ deploys t = O
    /\ wakeups t = []
    /\ List.length t = Z.to_nat n.
Proof.
  intros E Hb n.
  destruct (remove_listing_ok cfg w w1 cur oth E Hb) as (w2 & t & Er & Hrest).
  exists w2, t. split; [|exact Hrest].
  unfold removal_phase, bind. rewrite Er. simpl. now rewrite app_nil_r.
Qed.

(** The removal phase always starts with its own listing call. *)
Lemma removal_phase_lists (cfg : Config) (w : W) :
  exists t, events (removal_phase cfg w) = ListApps :: t.
Proof.
  unfold removal_phase, removeOutdatedApps, bind, call.
  destruct (AllIdledApps w) as [[[cur oth] [e|]] w1]; simpl.
  - eexists. reflexivity.
  - unfold emit, lift.
    destruct (slice_to oth (remove_count (BatchSize cfg) (len oth)))
      as [apps|msg|]; simpl; try (eexists; reflexivity).
    destruct (delete_each apps w1) as [[o w2] t2]. destruct o; simpl;
      eexists; reflexivity.
Qed.

(** With a non-negative batch size a cycle always returns; it wakes no
    [select], and its first event is a listing call. *)
Lemma work_returns (cfg : Config) (w : W) :
  0 <= BatchSize cfg ->
  exists w' t,
    work cfg w = (Ret tt, w', ListApps :: t)
    /\ wakeups t = [].
Proof.
  intros Hb.
  destruct (AllIdledApps w) as [[[cur oth] [e|]] w1] eqn:E.
  - exists w1, [LogErr e "Fail to add apps to pool"].
    rewrite (work_add_failed cfg w w1 [ListApps] e); [split; reflexivity|].
    exact (add_listing_failed cfg w w1 cur oth e E).
  - destruct (add_listing_ok cfg w w1 cur oth E) as (err & w2 & Ea & _).
    set (n := add_count (PoolSize cfg) (BatchSize cfg) (len cur)) in Ea.
    set (g := repeat DeployActor (Z.to_nat n)) in Ea.
    destruct err as [e|].
    + rewrite (work_add_failed cfg w w2 _ e Ea).
      eexists; eexists; split; [reflexivity|].
      simpl. rewrite wakeups_app, wakeups_started. reflexivity.
    + rewrite (work_add_ok cfg w w2 _ Ea).
      destruct (AllIdledApps w2) as [[[cur2 oth2] [e2|]] w3] eqn:E2.
      * rewrite (removal_phase_failed cfg w2 w3 cur2 oth2 e2 E2).
        eexists; eexists; split; [reflexivity|].
        simpl. rewrite wakeups_app, wakeups_started. reflexivity.
      * destruct (removal_phase_ok cfg w2 w3 cur2 oth2 E2 Hb)
          as (w4 & t & Er & _ & _ & _ & Hs & _).
        rewrite Er. eexists; eexists; split; [reflexivity|].
        simpl. rewrite wakeups_app, wakeups_started. simpl. exact Hs.
Qed.

(** *** The scheduler loop *)

(** After any number of ticks, the loop leaves on [Done] and returns nil.
    Its first event is a wake-up of the [select], and it wakes once per
    tick and once for [Done]. *)
Lemma loop_shutdown (cfg : Config) (rest : list Signal) (k : nat) :
  0 <= BatchSize cfg ->
  forall w : W, exists w' s t,
    loop cfg (repeat Tick k ++ Done :: rest) w = (Ret None, w', Select s :: t)
    /\ wakeups (Select s :: t) = repeat Tick k ++ [Done].
Proof.
  intros Hb. induction k as [|k IH]; intros w; simpl.
  - exists w, Done, []. split; reflexivity.
  - destruct (work_returns cfg w Hb) as (w1 & t1 & Ew & Hw).
    destruct (IH w1) as (w2 & s & t2 & El & Hl).
    exists w2, Tick, ((ListApps :: t1) ++ Select s :: t2).
    unfold bind, emit. rewrite Ew, El. simpl. split; [reflexivity|].
    rewrite wakeups_app, Hw. simpl. simpl in Hl. now rewrite Hl.
Qed.

End Cycle.

Import Scripted.

(** ** Capacity planning *)

(** C3, as amended.  After a successful listing, with non-negative pool
    and batch sizes, the count [addAppsToPool] computes and logs is
    [min(batchSize, poolSize - currentCount)], and the number of deploys it
    starts is [min(batchSize, max(0, poolSize - currentCount))]: between 0
    and the batch size, and 0 once the pool is full. *)
Theorem additions_started {W : Type} `{Platform W}
    (cfg : Config) (w w1 : W) (cur oth : list App) :
  AllIdledApps w = (cur, oth, None, w1) ->
  0 <= PoolSize cfg <= int_max ->
  0 <= BatchSize cfg ->
  len cur <= int_max ->
  let n := add_count (PoolSize cfg) (BatchSize cfg) (len cur) in
  let started := Z.of_nat (deploys (events (addAppsToPool cfg w))) in
  n = Z.min (BatchSize cfg) (PoolSize cfg - len cur)
  /\ started = additionsNeeded_spec (len cur) (PoolSize cfg) (BatchSize cfg)
  /\ 0 <= started <= BatchSize cfg
  /\ (PoolSize cfg <= len cur -> started = 0).
Proof.
  intros E Hp Hb Hc n started.
  assert (Hr : in_int (PoolSize cfg - len cur)).
  { unfold in_int, int_min, int_max in *. unfold len in *. lia. }
  assert (Hn : n = Z.min (BatchSize cfg) (PoolSize cfg - len cur)).
  { apply add_count_exact, Hr. }
  assert (Hs : started = Z.max 0 n).
  { unfold started.
    destruct (add_listing_ok cfg w w1 cur oth E) as (err & w2 & Ea & _).
    rewrite Ea. unfold events. simpl. fold n.
    rewrite !deploys_cons, deploys_started, repeat_length. simpl. lia. }
  unfold additionsNeeded_spec. repeat split; lia.
Qed.

(** A pool of three with a target of five and a batch of two: two deploys. *)
Lemma additions_started_witness :
  add_count (PoolSize cfg0) (BatchSize cfg0) (len three) = 2
  /\ Z.of_nat (deploys (events (addAppsToPool cfg0 w_short))) = 2.
Proof.
  assert (E : AllIdledApps w_short
               = (three, [], None, snd (AllIdledApps w_short))) by reflexivity.
  destruct (additions_started cfg0 w_short _ three [] E) as (Hn & Hs & _).
  - vm_compute. split; discriminate.
  - vm_compute. discriminate.
  - vm_compute. discriminate.
  - split; [exact Hn | exact Hs].
Defined.

(** C3, as the specification states it, fails on the count the code
    computes: with a pool of 5, a batch of 2 and 6 current instances the
    count is -1, not 0. *)
Lemma additions_planned_counterexample :
  add_count 5 2 6 = -1
  /\ add_count 5 2 6 <> additionsNeeded_spec 6 5 2
  /\ ~ 0 <= add_count 5 2 6.
Proof.
  split; [reflexivity|]. split; vm_compute; intros Hc; discriminate Hc || now apply Hc.
Qed.

(** C5.  For non-negative counts the number of removals planned is
    [min(batchSize, otherCount)]: between 0 and the batch size, at most the
    number of outdated instances, and 0 when there is none. *)
Theorem removals_planned (otherCount batchSize : Z) :
  0 <= otherCount ->
  0 <= batchSize ->
  remove_count batchSize otherCount = removalsNeeded_spec otherCount batchSize
  /\ 0 <= remove_count batchSize otherCount <= batchSize
  /\ remove_count batchSize otherCount <= otherCount
  /\ (otherCount = 0 -> remove_count batchSize otherCount = 0).
Proof.
  intros Ho Hb. rewrite remove_count_min. unfold removalsNeeded_spec.
  repeat split; lia.
Qed.

(** One outdated instance and a batch of two: one removal. *)
Lemma removals_planned_witness :
  remove_count 2 1 = 1 /\ 0 <= remove_count 2 1 <= 2.
Proof.
  destruct (removals_planned 1 2) as (H1 & H2 & _); [lia | lia |].
  split; [exact H1 | exact H2].
Defined.

(** ** The two phases of a cycle *)

(** C1, as the specification states it, fails: the removal phase makes a
    listing call of its own, and the instances it removes are taken from
    that second listing.  Here the first listing shows no outdated
    instance and the second shows one, which is removed. *)
Lemma single_snapshot_counterexample :
  listings (events (work cfg0 w_shift)) = 2%nat
  /\ outdated (fst (AllIdledApps w_shift)) = []
  /\ deleted (events (work cfg0 w_shift)) = [app "old1"]
  /\ deleted (events (work cfg0 w_shift))
     <> firstn (Z.to_nat (remove_count (BatchSize cfg0)
                            (len (outdated (fst (AllIdledApps w_shift))))))
          (outdated (fst (AllIdledApps w_shift))).
Proof.
  repeat split; try reflexivity. vm_compute. discriminate.
Qed.

(** C1, as amended.  Each phase of a cycle makes its own listing call.
    When the first listing fails the cycle ends there: one listing call,
    the error logged, no deploy started and no instance removed.  When the
    addition phase succeeds the removal phase lists again, so the cycle
    makes two listing calls, and with a non-negative batch size the
    instances removed are the first [min(batchSize, otherCount)] outdated
    instances of that second listing. *)
Theorem cycle_listings {W : Type} `{Platform W}
    (cfg : Config) (w w1 : W) (cur oth : list App) (err : option error) :
  AllIdledApps w = (cur, oth, err, w1) ->
  (forall e, err = Some e ->
     work cfg w
     = (Ret tt, w1, [ListApps; LogErr e "Fail to add apps to pool"]))
  /\ (forall (w2 w3 : W) (t : list Event) (cur2 oth2 : list App),
        addAppsToPool cfg w = (Ret None, w2, t) ->
        AllIdledApps w2 = (cur2, oth2, None, w3) ->
        0 <= BatchSize cfg ->
        listings (events (work cfg w)) = 2%nat
        /\ deleted (events (work cfg w))
           = firstn (Z.to_nat (remove_count (BatchSize cfg) (len oth2))) oth2).
Proof.
  intros E. split.
  - intros e ->.
    rewrite (work_add_failed cfg w w1 [ListApps] e); [reflexivity|].
    exact (add_listing_failed cfg w w1 cur oth e E).
  - intros w2 w3 t cur2 oth2 Ea E2 Hb.
    destruct err as [e|].
    { rewrite (add_listing_failed cfg w w1 cur oth e E) in Ea. discriminate. }
    destruct (add_listing_ok cfg w w1 cur oth E) as (err' & w2' & Ea' & _).
    rewrite Ea in Ea'. injection Ea' as _ _ Ht.
    destruct (removal_phase_ok cfg w2 w3 cur2 oth2 E2 Hb)
      as (w4 & td & Er & Hd & Hl & _).
    rewrite (work_add_ok cfg w w2 t Ea), Er. unfold events. simpl.
    rewrite listings_app, deleted_app, Ht.
    rewrite !listings_cons, listings_started, Hl. simpl.
    rewrite deleted_started, Hd. split; reflexivity.
Qed.

(** A cycle whose two listings differ: the second one decides.  And a
    cycle whose first listing fails: it ends after that one call. *)
Lemma cycle_listings_witness :
  (listings (events (work cfg0 w_shift)) = 2%nat
   /\ deleted (events (work cfg0 w_shift)) = [app "old1"])
  /\ work cfg0 w_denied
     = (Ret tt, w_denied,
        [ListApps; LogErr "listing failed" "Fail to add apps to pool"]).
Proof.
  split.
  - assert (E : AllIdledApps w_shift
                 = (five, [], None, snd (AllIdledApps w_shift))) by reflexivity.
    destruct (cycle_listings cfg0 w_shift _ five [] None E) as (_ & Hc).
    refine (Hc (snd (AllIdledApps w_shift))
               (snd (AllIdledApps (snd (AllIdledApps w_shift))))
               [ListApps; LogNum 0 "Adding apps to pool"]
               five [app "old1"] _ _ _).
    + reflexivity.
    + reflexivity.
    + vm_compute. discriminate.
  - assert (E : AllIdledApps w_denied
                 = ([], [], Some "listing failed", w_denied)) by reflexivity.
    destruct (cycle_listings cfg0 w_denied _ [] [] _ E) as (Hf & _).
    exact (Hf "listing failed" eq_refl).
Defined.

(** The addition phase removes nothing. *)
Lemma add_deletes_nothing {W : Type} `{Platform W} (cfg : Config) (w : W) :
  deleted (events (addAppsToPool cfg w)) = [].
Proof.
  destruct (AllIdledApps w) as [[[cur oth] [e|]] w1] eqn:E.
  - now rewrite (add_listing_failed cfg w w1 cur oth e E).
  - destruct (add_listing_ok cfg w w1 cur oth E) as (err & w2 & Ea & _).
    rewrite Ea. unfold events. simpl. apply deleted_started.
Qed.

Section RemovalCalls.

Context {W : Type} `{Platform W}.

(** The loop over the instances to remove calls [DeleteApp] on each of
    them in turn, each call in the world the one before left, and records
    what each call came to. *)
Lemma delete_each_calls (apps : list App) :
  forall w : W, exists td : list Event,
    delete_each apps w
    = (Ret tt, fold_left (fun v a => snd (DeleteApp a v)) apps w, td)
    /\ List.length td = List.length apps
    /\ deleted td = apps
    /\ forall (i : nat) (a : App),
         nth_error apps i = Some a ->
         nth_error td i
         = Some (Delete a
                   (fst (DeleteApp a
                           (fold_left (fun v b => snd (DeleteApp b v))
                              (firstn i apps) w)))).
Proof.
  induction apps as [|a apps IH]; intros w.
  - exists []. simpl. repeat split. intros [|i] b Hb; discriminate Hb.
  - simpl. destruct (DeleteApp a w) as [res w1] eqn:Ed.
    destruct (IH w1) as (td & E & Hlen & Hdel & Hnth).
    rewrite E. exists (Delete a res :: td). simpl.
    rewrite Hlen, Hdel. repeat split.
    intros [|i] b Hb; simpl in *.
    + injection Hb as <-. now rewrite Ed.
    + rewrite Ed. simpl. exact (Hnth i b Hb).
Qed.

(** The removal phase after a listing that succeeded, call by call. *)
Lemma removal_phase_calls (cfg : Config) (w w1 : W) (cur oth : list App) :
  AllIdledApps w = (cur, oth, None, w1) ->
  0 <= BatchSize cfg ->
  let n := remove_count (BatchSize cfg) (len oth) in
  let apps := firstn (Z.to_nat n) oth in
  exists td : list Event,
    removal_phase cfg w
    = (Ret tt, fold_left (fun v a => snd (DeleteApp a v)) apps w1,
       ListApps :: LogNum n "Removing outdated apps from pool" :: td)
    /\ List.length td = Z.to_nat n
    /\ deleted td = apps
    /\ forall (i : nat) (a : App),
         nth_error apps i = Some a ->
         nth_error td i
         = Some (Delete a
                   (fst (DeleteApp a
                           (fold_left (fun v b => snd (DeleteApp b v))
                              (firstn i apps) w1)))).
Proof.
  intros E Hb n apps.
  pose proof (remove_count_fits (BatchSize cfg) oth Hb) as Hn. fold n in Hn.
  destruct (delete_each_calls apps w1) as (td & Ed & Hlen & Hdel & Hnth).
  exists td. split; [|split; [|split; [exact Hdel|exact Hnth]]].
  - unfold removal_phase, removeOutdatedApps, bind, call, ret, emit, lift.
    rewrite E. fold n. rewrite (slice_to_ok oth n Hn). fold apps.
    rewrite Ed. simpl. now rewrite !app_nil_r.
  - rewrite Hlen. unfold apps. rewrite length_firstn. unfold len in Hn. lia.
Qed.

End RemovalCalls.

(** C4, as the specification states it, fails when the addition phase
    succeeds and the listing call of the removal phase fails: the cycle
    has seen three outdated instances, a batch of two plans two removals,
    and none is made. *)
Lemma planned_removals_counterexample :
  result (addAppsToPool cfg0 w_once) = Ret None
  /\ outdated (fst (AllIdledApps w_once)) = stale
  /\ remove_count (BatchSize cfg0) (len stale) = 2
  /\ deleted (events (work cfg0 w_once)) = []
  /\ deleted (events (work cfg0 w_once))
     <> firstn (Z.to_nat (remove_count (BatchSize cfg0) (len stale))) stale.
Proof.
  repeat split. vm_compute. discriminate.
Qed.

(** C4, as amended.  When the addition phase returns an error, the cycle
    logs it and ends: nothing of the removal phase runs, and no instance
    is removed.  When the addition phase succeeds, the removal phase makes
    a listing call of its own.  If that call fails, the cycle logs the
    error and removes nothing.  If it succeeds, then with a non-negative
    batch size the cycle goes on with exactly [n] calls of [DeleteApp], one
    after the other, each in the world the one before left, on the first
    [n] outdated instances of that listing in listing order, where [n] is
    [min(batchSize, otherCount)]; the cycle ends in the world the last call
    left. *)
Theorem removal_after_addition {W : Type} `{Platform W}
    (cfg : Config) (w w1 : W) (t : list Event) (err : option error) :
  addAppsToPool cfg w = (Ret err, w1, t) ->
  0 <= BatchSize cfg ->
  match err with
  | Some e =>
      work cfg w = (Ret tt, w1, t ++ [LogErr e "Fail to add apps to pool"])
      /\ deleted (events (work cfg w)) = []
  | None =>
      forall (cur oth : list App) (err2 : option error) (w2 : W),
        AllIdledApps w1 = (cur, oth, err2, w2) ->
        match err2 with
        | Some e2 =>
            work cfg w
            = (Ret tt, w2,
               t ++ [ListApps;
                     LogErr e2 "Fail to remove outdated apps from pool"])
            /\ deleted (events (work cfg w)) = []
        | None =>
            let n := remove_count (BatchSize cfg) (len oth) in
            let apps := firstn (Z.to_nat n) oth in
            exists td : list Event,
              work cfg w
              = (Ret tt, fold_left (fun v a => snd (DeleteApp a v)) apps w2,
                 t ++ ListApps
                   :: LogNum n "Removing outdated apps from pool" :: td)
              /\ List.length td = Z.to_nat n
              /\ (forall (i : nat) (a : App),
                    nth_error apps i = Some a ->
                    nth_error td i
                    = Some (Delete a
                              (fst (DeleteApp a
                                      (fold_left
                                         (fun v b => snd (DeleteApp b v))
                                         (firstn i apps) w2)))))
              /\ deleted td = apps
              /\ deleted (events (work cfg w)) = apps
        end
  end.
Proof.
  intros Ea Hb.
  assert (Hd : deleted t = []).
  { pose proof (add_deletes_nothing cfg w) as Hd. now rewrite Ea in Hd. }
  destruct err as [e|].
  - rewrite (work_add_failed cfg w w1 t e Ea). split; [reflexivity|].
    unfold events. simpl. now rewrite deleted_app, Hd.
  - intros cur oth err2 w2 E2. rewrite (work_add_ok cfg w w1 t Ea).
    destruct err2 as [e2|].
    + rewrite (removal_phase_failed cfg w1 w2 cur oth e2 E2).
      unfold result, world, events. simpl. split; [reflexivity|].
      now rewrite deleted_app, Hd.
    + intros n apps.
      destruct (removal_phase_calls cfg w1 w2 cur oth E2 Hb)
        as (td & Er & Hlen & Hdel & Hnth).
      fold n in Er, Hlen. fold apps in Er, Hdel, Hnth.
      exists td. rewrite Er. unfold result, world, events. simpl.
      repeat split; try assumption.
      now rewrite deleted_app, Hd.
Qed.

(** A full pool with three outdated instances and a batch of two, whose
    deletions fail; and the same pool when the second listing fails. *)
Lemma removal_after_addition_witness :
  (deleted (events (work cfg0 w_stale)) = [app "old1"; app "old2"]
   /\ events (work cfg0 w_stale)
      = [ListApps; LogNum 0 "Adding apps to pool";
         ListApps; LogNum 2 "Removing outdated apps from pool";
         Delete (app "old1") (Some "delete failed");
         Delete (app "old2") (Some "delete failed")])
  /\ work cfg0 w_once
     = (Ret tt, snd (AllIdledApps w_once),
        [ListApps; LogNum 0 "Adding apps to pool"; ListApps;
         LogErr "listing failed" "Fail to remove outdated apps from pool"]).
Proof.
  assert (Hb : 0 <= BatchSize cfg0) by (vm_compute; discriminate).
  split.
  - assert (Ea : addAppsToPool cfg0 w_stale
                 = (Ret None, snd (AllIdledApps w_stale),
                    [ListApps; LogNum 0 "Adding apps to pool"]))
      by reflexivity.
    assert (E2 : AllIdledApps (snd (AllIdledApps w_stale))
                 = (five, stale, None,
                    snd (AllIdledApps (snd (AllIdledApps w_stale)))))
      by reflexivity.
    destruct (removal_after_addition cfg0 w_stale _ _ None Ea Hb
                five stale None _ E2)
      as (td & _ & _ & _ & _ & Hd).
    split; [exact Hd|reflexivity].
  - assert (Ea : addAppsToPool cfg0 w_once
                 = (Ret None, snd (AllIdledApps w_once),
                    [ListApps; LogNum 0 "Adding apps to pool"]))
      by reflexivity.
    assert (E2 : AllIdledApps (snd (AllIdledApps w_once))
                 = ([], [], Some "listing failed", snd (AllIdledApps w_once)))
      by reflexivity.
    destruct (removal_after_addition cfg0 w_once _ _ None Ea Hb
                [] [] (Some "listing failed") _ E2) as (Ew & _).
    exact Ew.
Defined.



(** C10.  When the listing succeeds and the pool already holds at least
    [PoolSize] current instances (the subtraction on line 102 staying in
    the range of [int], as it does for every non-negative pool size),
    [addAppsToPool] starts no deploy and returns nil, and the cycle goes
    on with the removal phase, which makes its listing call. *)
Theorem full_pool_cycle {W : Type} `{Platform W}
    (cfg : Config) (w w1 : W) (cur oth : list App) :
  AllIdledApps w = (cur, oth, None, w1) ->
  PoolSize cfg <= len cur ->
  int_min <= PoolSize cfg - len cur ->
  let n := add_count (PoolSize cfg) (BatchSize cfg) (len cur) in
  addAppsToPool cfg w = (Ret None, w1, [ListApps; LogNum n "Adding apps to pool"])
  /\ deploys (events (addAppsToPool cfg w)) = O
  /\ work cfg w
     = (result (removal_phase cfg w1), world (removal_phase cfg w1),
        [ListApps; LogNum n "Adding apps to pool"]
          ++ events (removal_phase cfg w1))
  /\ exists t, events (removal_phase cfg w1) = ListApps :: t.
Proof.
  intros E Hfull Hmin n.
  assert (Hn : n <= 0).
  { unfold n. rewrite add_count_exact; [lia|].
    unfold in_int, int_max. split; [exact Hmin|lia]. }
  destruct (add_listing_ok cfg w w1 cur oth E) as (err & w2 & Ea & Hz).
  fold n in Ea, Hz. destruct (Hz Hn) as [-> ->].
  replace (Z.to_nat n) with O in Ea by lia. simpl in Ea.
  split; [exact Ea|]. split; [now rewrite Ea|].
  split; [exact (work_add_ok cfg w w1 _ Ea)|].
  apply removal_phase_lists.
Qed.

(** A full pool: no deploy, and the removal phase does its work. *)
Lemma full_pool_cycle_witness :
  deploys (events (addAppsToPool cfg0 w_stale)) = O
  /\ deleted (events (work cfg0 w_stale)) = [app "old1"; app "old2"].
Proof.
  assert (E : AllIdledApps w_stale
               = (five, stale, None, snd (AllIdledApps w_stale)))
    by reflexivity.
  destruct (full_pool_cycle cfg0 w_stale _ five stale E)
    as (_ & Hd & Hw & _).
  - vm_compute. discriminate.
  - vm_compute. discriminate.
  - split; [exact Hd|]. rewrite Hw. reflexivity.
Defined.

(** ** Start-up and shutdown *)

Section Startup.

Context {W : Type} `{Platform W}.

(** The addition phase always returns, and begins with its listing call. *)
Lemma add_lists (cfg : Config) (w : W) :
  exists err w1 t, addAppsToPool cfg w = (Ret err, w1, ListApps :: t).
Proof.
  destruct (AllIdledApps w) as [[[cur oth] [e|]] w1] eqn:E.
  - rewrite (add_listing_failed cfg w w1 cur oth e E).
    now exists (Some e), w1, [].
  - destruct (add_listing_ok cfg w w1 cur oth E) as (err & w2 & Ea & _).
    rewrite Ea. eexists; eexists; eexists; reflexivity.
Qed.

(** A cycle begins with a listing call, whatever the configuration. *)
Lemma work_lists (cfg : Config) (w : W) :
  exists t, events (work cfg w) = ListApps :: t.
Proof.
  destruct (add_lists cfg w) as (err & w1 & t & Ea).
  destruct err as [e|].
  - rewrite (work_add_failed cfg w w1 _ e Ea). eexists; reflexivity.
  - rewrite (work_add_ok cfg w w1 _ Ea). eexists; reflexivity.
Qed.

(** [Start] past the check of the template directory: the ticker is
    created, then the first cycle runs, then the loop. *)
Lemma start_proceeds (cfg : Config) (sel : list Signal) (w w0 : W)
    (serr : option StatErr) :
  os_Stat (TemplateDir cfg) w = (serr, w0) ->
  IsNotExist serr = false ->
  0 < CheckInterval cfg ->
  Start cfg sel w
  = (result (defer TickerStop (bind (work cfg) (fun _ => loop cfg sel)) w0),
     world (defer TickerStop (bind (work cfg) (fun _ => loop cfg sel)) w0),
     [LogInfo "Starting worker"; Stat (TemplateDir cfg);
      TickerNew (CheckInterval cfg)]
       ++ events (defer TickerStop (bind (work cfg) (fun _ => loop cfg sel)) w0)).
Proof.
  intros Es Hne Hd.
  unfold Start, NewTicker.
  destruct (Z.leb_spec (CheckInterval cfg) 0) as [Hle|_]; [lia|].
  unfold bind at 1 2 3, emit, call. rewrite Es, Hne.
  destruct (defer TickerStop (bind (work cfg) (fun _ => loop cfg sel)) w0)
    as [[o w2] t]. reflexivity.
Qed.

End Startup.

(** C6.  With the template directory in place, a positive check interval
    and a non-negative batch size, [Start] runs one whole cycle before the
    [select] is reached for the first time; and when [Done] comes, after
    any number of ticks, the loop is left and [Start] returns nil. *)
Theorem start_cycle_then_shutdown {W : Type} `{Platform W}
    (cfg : Config) (w w0 : W) (serr : option StatErr)
    (k : nat) (rest : list Signal) :
  os_Stat (TemplateDir cfg) w = (serr, w0) ->
  IsNotExist serr = false ->
  0 < CheckInterval cfg ->
  0 <= BatchSize cfg ->
  exists (w1 w2 : W) (cyc later : list Event) (s : Signal),
    work cfg w0 = (Ret tt, w1, cyc)
    /\ wakeups cyc = []
    /\ Start cfg (repeat Tick k ++ Done :: rest) w
       = (Ret None, w2,
          [LogInfo "Starting worker"; Stat (TemplateDir cfg);
           TickerNew (CheckInterval cfg)]
            ++ cyc ++ Select s :: later)
    /\ wakeups (Select s :: later) = repeat Tick k ++ [Done].
Proof.
  intros Es Hne Hd Hb.
  destruct (work_returns cfg w0 Hb) as (w1 & t1 & Ew & Hw).
  destruct (loop_shutdown cfg rest k Hb w1) as (w2 & s & t2 & El & Hl).
  exists w1, w2, (ListApps :: t1), (t2 ++ [TickerStop]), s.
  split; [exact Ew|]. split; [exact Hw|].
  rewrite (start_proceeds cfg _ w w0 serr Es Hne Hd).
  unfold defer, bind. rewrite Ew, El. unfold result, world, events. simpl.
  split.
  - now rewrite <- app_assoc.
  - rewrite wakeups_app. simpl. rewrite app_nil_r. exact Hl.
Qed.

(** One tick, then [Done]. *)
Lemma start_cycle_then_shutdown_witness :
  result (Start cfg0 [Tick; Done] w_stale) = Ret None
  /\ wakeups (events (Start cfg0 [Tick; Done] w_stale)) = [Tick; Done].
Proof.
  assert (Es : os_Stat (TemplateDir cfg0) w_stale = (None, w_stale))
    by reflexivity.
  assert (Hd : 0 < CheckInterval cfg0) by reflexivity.
  assert (Hb : 0 <= BatchSize cfg0) by (vm_compute; discriminate).
  destruct (start_cycle_then_shutdown cfg0 w_stale w_stale None 1 []
              Es eq_refl Hd Hb)
    as (w1 & w2 & cyc & later & s & _ & Hc & E & Hl).
  change (repeat Tick 1 ++ [Done]) with [Tick; Done] in E, Hl.
  rewrite E. unfold result, events. simpl. split; [reflexivity|].
  rewrite wakeups_app, Hc. exact Hl.
Defined.

(** C7, as the specification states it, fails for a template directory
    that exists but cannot be read: [os.Stat] fails on a permission error,
    which [os.IsNotExist] does not take for a missing file, so [Start]
    goes on, calls the platform, and in the end returns nil. *)
Lemma start_inaccessible_counterexample :
  os_Stat (TemplateDir cfg0) w_denied = (Some ErrPermission, w_denied)
  /\ result (Start cfg0 [Done] w_denied) = Ret None
  /\ filter is_remote (events (Start cfg0 [Done] w_denied)) = [ListApps].
Proof. repeat split. Qed.

(** C7, as amended.  If the template directory does not exist, [Start]
    returns an error at once: its only actions are the start-up log line
    and the [os.Stat] call, with no platform call, no ticker and no cycle.
    On any other outcome of [os.Stat], an error included, and with a
    positive check interval, [Start] creates the ticker and begins the
    first cycle with a listing call. *)
Theorem start_missing_template {W : Type} `{Platform W}
    (cfg : Config) (sel : list Signal) (w w0 : W) (serr : option StatErr) :
  os_Stat (TemplateDir cfg) w = (serr, w0) ->
  (serr = Some ErrNotExist ->
     Start cfg sel w
     = (Ret (Some (not_exist_msg (TemplateDir cfg))), w0,
        [LogInfo "Starting worker"; Stat (TemplateDir cfg)])
     /\ filter is_remote (events (Start cfg sel w)) = []
     /\ wakeups (events (Start cfg sel w)) = [])
  /\ (serr <> Some ErrNotExist -> 0 < CheckInterval cfg ->
      exists t,
        events (Start cfg sel w)
        = [LogInfo "Starting worker"; Stat (TemplateDir cfg);
           TickerNew (CheckInterval cfg); ListApps] ++ t).
Proof.
  intros Es. split.
  - intros ->.
    assert (E : Start cfg sel w
                = (Ret (Some (not_exist_msg (TemplateDir cfg))), w0,
                   [LogInfo "Starting worker"; Stat (TemplateDir cfg)])).
    { unfold Start, bind, emit, call. rewrite Es. reflexivity. }
    rewrite E. repeat split.
  - intros Hne Hd.
    assert (Hf : IsNotExist serr = false).
    { destruct serr as [[| |msg]|]; try reflexivity. now elim Hne. }
    rewrite (start_proceeds cfg sel w w0 serr Es Hf Hd).
    destruct (work_lists cfg w0) as (t & Et).
    unfold defer, bind.
    destruct (work cfg w0) as [[o w1] tw]. unfold events in Et. simpl in Et.
    subst tw. unfold events. simpl.
    destruct o as [[]|msg|].
    + destruct (loop cfg sel w1) as [[o2 w2] t2].
      destruct o2; simpl; eexists; reflexivity.
    + simpl. eexists; reflexivity.
    + simpl. eexists; reflexivity.
Qed.

(** The template directory is missing; and the template directory cannot
    be read. *)
Lemma start_missing_template_witness :
  Start cfg0 [Tick; Done] w_missing
  = (Ret (Some "template directory template does not exist"), w_missing,
     [LogInfo "Starting worker"; Stat "template"])
  /\ exists t,
       events (Start cfg0 [Done] w_denied)
       = [LogInfo "Starting worker"; Stat "template";
          TickerNew 60000000000; ListApps] ++ t.
Proof.
  split.
  - assert (Es : os_Stat (TemplateDir cfg0) w_missing
                 = (Some ErrNotExist, w_missing)) by reflexivity.
    destruct (start_missing_template cfg0 [Tick; Done] w_missing w_missing _ Es)
      as (Hm & _).
    destruct (Hm eq_refl) as (E & _). exact E.
  - assert (Es : os_Stat (TemplateDir cfg0) w_denied
                 = (Some ErrPermission, w_denied)) by reflexivity.
    destruct (start_missing_template cfg0 [Done] w_denied w_denied _ Es)
      as (_ & Hp).
    apply Hp; [discriminate | reflexivity].
Defined.

(** ** The deploy client *)

Import CfClient.

(** C9.  When a variable is missing or the deploy fails, the client logs
    one entry (the request for the two variables, or the error of the
    deploy), prints nothing, and exits with status 1.  When both variables
    are set and the deploy succeeds, it writes the characters [Visit], a
    space, the URL the deploy returned and a line feed on standard output,
    logs nothing, and ends with status 0. *)
Theorem main_exit (getenv : string -> string)
    (Deploy : string -> string -> string * option error) :
  let token := getenv "HEROKU_API_TOKEN" in
  let target := getenv "HEROKU_APP" in
  let p := main getenv Deploy in
  ((token = "" \/ target = "" \/ exists e, snd (Deploy token target) = Some e) ->
     status p <> 0 /\ status p = 1 /\ logged p <> [] /\ stdout p = "")
  /\ (token = "" \/ target = "" ->
      logged p = ["Provide HEROKU_API_TOKEN and HEROKU_APP"])
  /\ (token <> "" -> target <> "" ->
      forall e, snd (Deploy token target) = Some e -> logged p = [e])
  /\ (token <> "" -> target <> "" ->
      forall url, Deploy token target = (url, None) ->
        status p = 0
        /\ stdout p
           = String.append "Visit "
               (String.append url (String (Ascii.ascii_of_nat 10) EmptyString))
        /\ logged p = []).
Proof.
  intros token target p. unfold p, main. fold token target.
  destruct (String.eqb_spec token "") as [Ht|Ht];
    destruct (String.eqb_spec target "") as [Ha|Ha]; simpl;
    try (repeat split; try discriminate; try reflexivity;
         intros; contradiction).
  split; [|split; [|split]].
  - intros [Hc|[Hc|[e He]]]; try contradiction.
    destruct (Deploy token target) as [url [e'|]]; simpl in *.
    + repeat split; discriminate.
    + discriminate.
  - intros [Hc|Hc]; contradiction.
  - intros _ _ e He.
    destruct (Deploy token target) as [url [e'|]]; simpl in He;
      [injection He as ->; reflexivity | discriminate He].
  - intros _ _ url ->. repeat split.
Qed.

(** The client with both variables set and a deploy that succeeds, and
    with the token unset. *)
Lemma main_exit_witness :
  (status (main (env "token" "editor")
             (fun _ _ => ("https://editor.example", None))) = 0
   /\ stdout (main (env "token" "editor")
                (fun _ _ => ("https://editor.example", None)))
      = String.append "Visit https://editor.example"
          (String (Ascii.ascii_of_nat 10) EmptyString))
  /\ (status (main (env "" "editor")
                (fun _ _ => ("https://editor.example", None))) = 1
      /\ logged (main (env "" "editor")
                   (fun _ _ => ("https://editor.example", None)))
         = ["Provide HEROKU_API_TOKEN and HEROKU_APP"]).
Proof.
  split.
  - destruct (main_exit (env "token" "editor")
                (fun _ _ => ("https://editor.example", None)))
      as (_ & _ & _ & Hok).
    destruct (Hok ltac:(discriminate) ltac:(discriminate)
                "https://editor.example" eq_refl) as (Hs & Ho & _).
    split; [exact Hs | exact Ho].
  - destruct (main_exit (env "" "editor")
                (fun _ _ => ("https://editor.example", None)))
      as (Hf & Hm & _).
    destruct (Hf (or_introl eq_refl)) as (_ & Hs & _).
    split; [exact Hs | exact (Hm (or_introl eq_refl))].
Defined.

(** ** The shape of a cycle *)

Lemma count_ev_app (p : Event -> bool) (t1 t2 : list Event) :
  count_ev p (t1 ++ t2) = (count_ev p t1 + count_ev p t2)%nat.
Proof. unfold count_ev. now rewrite filter_app, length_app. Qed.

Lemma count_ev_none (p q : Event -> bool) (t : list Event) :
  (forall e, q e = true -> p e = false) ->
  Forall (fun e => q e = true) t ->
  count_ev p t = O.
Proof.
  intros Hpq Ht. unfold count_ev. induction Ht as [|e t He _ IH]; simpl.
  - reflexivity.
  - now rewrite (Hpq e He).
Qed.

Lemma wakeups_none (t : list Event) :
  Forall (fun e => is_cycle_event e = true) t -> wakeups t = [].
Proof.
  intros Ht. induction Ht as [|e t He _ IH]; simpl; [reflexivity|].
  destruct e; simpl in He; try discriminate; exact IH.
Qed.

Lemma started_cycle_events (g : Group) :
  Forall (fun e => is_cycle_event e = true) (map (fun _ => Deploy) g).
Proof. induction g as [|a g IH]; simpl; constructor; auto. Qed.

Lemma deleted_length (t : list Event) :
  List.length (deleted t) = count_ev is_delete t.
Proof.
  unfold count_ev. induction t as [|e t IH]; simpl; [reflexivity|].
  destruct e; simpl; now rewrite ?IH.
Qed.

Section Shape.

Context {W : Type} `{Platform W}.

Lemma delete_each_cycle_events (apps : list App) :
  forall w : W,
    Forall (fun e => is_cycle_event e = true) (events (delete_each apps w)).
Proof.
  induction apps as [|a apps IH]; intros w; simpl.
  - constructor.
  - destruct (DeleteApp a w) as [res w1]. specialize (IH w1).
    destruct (delete_each apps w1) as [[o w2] t]. unfold events in *. simpl in *.
    constructor; [reflexivity|exact IH].
Qed.

(** With a negative batch size the count of removals is the batch size
    itself, and the slice expression on line 89 panics. *)
Lemma remove_negative_batch (cfg : Config) (w w1 : W) (cur oth : list App) :
  AllIdledApps w = (cur, oth, None, w1) ->
  BatchSize cfg < 0 ->
  removeOutdatedApps cfg w
  = (Panic "slice bounds out of range", w1,
     [ListApps; LogNum (BatchSize cfg) "Removing outdated apps from pool"]).
Proof.
  intros E Hb.
  assert (Hn : remove_count (BatchSize cfg) (len oth) = BatchSize cfg).
  { rewrite remove_count_min. unfold len. lia. }
  unfold removeOutdatedApps, bind, call, emit, lift. rewrite E, Hn.
  unfold slice_to. destruct (Z.ltb_spec (BatchSize cfg) 0); [reflexivity|lia].
Qed.

(** What the addition phase leaves in the trace, for every configuration:
    one listing call, no deletion, and at most [BatchSize] deploys. *)
Lemma add_facts (cfg : Config) (w : W) :
  let ev := events (addAppsToPool cfg w) in
  listings ev = 1%nat
  /\ deleted ev = []
  /\ (deploys ev <= Z.to_nat (BatchSize cfg))%nat
  /\ Forall (fun e => is_cycle_event e = true) ev.
Proof.
  destruct (AllIdledApps w) as [[[cur oth] [e|]] w1] eqn:E.
  - rewrite (add_listing_failed cfg w w1 cur oth e E). unfold events. simpl.
    unfold deploys. simpl. repeat split; try reflexivity; try lia.
    repeat constructor.
  - destruct (add_listing_ok cfg w w1 cur oth E) as (err & w2 & Ea & _).
    rewrite Ea. unfold events. simpl.
    set (n := add_count (PoolSize cfg) (BatchSize cfg) (len cur)).
    assert (Hn : n <= BatchSize cfg).
    { unfold n, add_count. destruct (Z.gtb_spec (BatchSize cfg)
        (int_sub (PoolSize cfg) (len cur))); lia. }
    rewrite !listings_cons, listings_started, !deploys_cons, deploys_started,
      repeat_length, deleted_started. simpl.
    repeat split; try reflexivity; try lia.
    repeat constructor. apply started_cycle_events.
Qed.

(** What the removal phase leaves in the trace, for every configuration:
    one listing call, no deploy, and deletions that are the first [k]
    outdated instances of its listing for some [k] within [BatchSize]. *)
Lemma removal_facts (cfg : Config) (w : W) :
  let ev := events (removal_phase cfg w) in
  listings ev = 1%nat
  /\ deploys ev = O
  /\ Forall (fun e => is_cycle_event e = true) ev
  /\ exists k : nat,
       (k <= Z.to_nat (BatchSize cfg))%nat
       /\ deleted ev = firstn k (outdated (fst (AllIdledApps w))).
Proof.
  destruct (AllIdledApps w) as [[[cur oth] [e|]] w1] eqn:E.
  - rewrite (removal_phase_failed cfg w w1 cur oth e E). unfold events. simpl.
    repeat split; try reflexivity; [repeat constructor|].
    exists O. split; [lia|reflexivity].
  - destruct (Z.ltb_spec (BatchSize cfg) 0) as [Hneg|Hb].
    + unfold removal_phase, bind.
      rewrite (remove_negative_batch cfg w w1 cur oth E Hneg).
      unfold events. simpl.
      repeat split; try reflexivity; [repeat constructor|].
      exists O. split; [lia|reflexivity].
    + pose proof (delete_each_cycle_events
        (firstn (Z.to_nat (remove_count (BatchSize cfg) (len oth))) oth) w1) as Hf.
      pose proof (remove_count_fits (BatchSize cfg) oth Hb) as Hfit.
      destruct (delete_each_runs
        (firstn (Z.to_nat (remove_count (BatchSize cfg) (len oth))) oth) w1)
        as (w2 & t & Ed & Hd & Hl & Hp & _ & _).
      rewrite Ed in Hf. unfold events in Hf. simpl in Hf.
      assert (Er : removal_phase cfg w
                   = (Ret tt, w2,
                      ListApps
                        :: LogNum (remove_count (BatchSize cfg) (len oth))
                             "Removing outdated apps from pool" :: t)).
      { unfold removal_phase, removeOutdatedApps, bind, call, emit, lift, ret.
        rewrite E, (slice_to_ok oth _ Hfit), Ed. simpl.
        now rewrite !app_nil_r. }
      rewrite Er. unfold events. simpl.
      rewrite !listings_cons, !deploys_cons, Hl, Hp. simpl.
      repeat split; try reflexivity; [repeat constructor; exact Hf|].
      exists (Z.to_nat (remove_count (BatchSize cfg) (len oth))).
      split; [|exact Hd].
      rewrite remove_count_min. lia.
Qed.

(** A cycle is the addition phase followed either by the log line of its
    error or by the removal phase. *)
Lemma work_split (cfg : Config) (w : W) :
  exists (err : option error) (w1 : W) (ta : list Event),
    addAppsToPool cfg w = (Ret err, w1, ta)
    /\ match err with
       | Some e =>
           work cfg w
           = (Ret tt, w1, ta ++ [LogErr e "Fail to add apps to pool"])
       | None =>
           work cfg w
           = (result (removal_phase cfg w1), world (removal_phase cfg w1),
              ta ++ events (removal_phase cfg w1))
       end.
Proof.
  destruct (add_lists cfg w) as (err & w1 & t & Ea).
  exists err, w1, (ListApps :: t). split; [exact Ea|].
  destruct err as [e|].
  - exact (work_add_failed cfg w w1 _ e Ea).
  - exact (work_add_ok cfg w w1 _ Ea).
Qed.

End Shape.

Lemma firstn_incl {A : Type} (k : nat) (l : list A) (a : A) :
  In a (firstn k l) -> In a l.
Proof.
  intros Hin. rewrite <- (firstn_skipn k l). apply in_or_app. now left.
Qed.

Lemma firstn_NoDup {A : Type} (k : nat) (l : list A) :
  NoDup l -> NoDup (firstn k l).
Proof.
  intros Hl. rewrite <- (firstn_skipn k l) in Hl.
  exact (NoDup_app_remove_r _ _ Hl).
Qed.

Section CycleFacts.

Context {W : Type} `{Platform W}.

(** The removal phase adds at most a log line to what
    [removeOutdatedApps] does. *)
Lemma removal_phase_events (cfg : Config) (w : W) :
  exists l,
    events (removal_phase cfg w) = events (removeOutdatedApps cfg w) ++ l
    /\ deleted l = [] /\ listings l = O /\ deploys l = O.
Proof.
  unfold removal_phase, bind.
  destruct (removeOutdatedApps cfg w) as [[[[e|]|msg|] w1] t];
    unfold events; simpl.
  - exists [LogErr e "Fail to remove outdated apps from pool"].
    repeat split.
  - exists []. repeat split.
  - exists []. rewrite app_nil_r. repeat split.
  - exists []. rewrite app_nil_r. repeat split.
Qed.

(** Every event of a cycle is a listing call, a deploy, a deletion or a
    log line of one of the phases. *)
Lemma work_cycle_events (cfg : Config) (w : W) :
  Forall (fun e => is_cycle_event e = true) (events (work cfg w)).
Proof.
  destruct (work_split cfg w) as (err & w1 & ta & Ea & Hw).
  destruct (add_facts cfg w) as (_ & _ & _ & Hf). rewrite Ea in Hf.
  unfold events in Hf. simpl in Hf.
  destruct err as [e|]; rewrite Hw; unfold events; simpl;
    apply Forall_app; split; try exact Hf.
  - repeat constructor.
  - now destruct (removal_facts cfg w1) as (_ & _ & Hr & _).
Qed.

End CycleFacts.

(** ** Further properties of a cycle *)

(** X1.  Whatever the configuration and whatever the platform answers, a
    cycle starts at most [BatchSize] deploys and hands at most [BatchSize]
    instances to [DeleteApp]; with a batch size of zero or less it does
    neither. *)
Theorem cycle_batch_cap {W : Type} `{Platform W} (cfg : Config) (w : W) :
  (deploys (events (work cfg w)) <= Z.to_nat (BatchSize cfg))%nat
  /\ (List.length (deleted (events (work cfg w))) <= Z.to_nat (BatchSize cfg))%nat.
Proof.
  destruct (work_split cfg w) as (err & w1 & ta & Ea & Hw).
  destruct (add_facts cfg w) as (_ & Hd & Hp & _). rewrite Ea in Hd, Hp.
  unfold events in Hd, Hp. simpl in Hd, Hp.
  destruct err as [e|]; rewrite Hw; unfold events; simpl;
    rewrite deploys_app, deleted_app, Hd; simpl.
  - unfold deploys at 2. simpl. lia.
  - destruct (removal_facts cfg w1) as (_ & Hp2 & _ & k & Hk & Hdel).
    unfold events in Hp2, Hdel. rewrite Hp2, Hdel.
    pose proof (firstn_le_length k (outdated (fst (AllIdledApps w1)))). lia.
Qed.

(** X2.  In a cycle the addition phase is over before the removal phase
    begins: the trace of the cycle is the trace of [addAppsToPool], in
    which nothing is deleted, followed by a rest in which no deploy is
    started. *)
Theorem cycle_adds_before_removing {W : Type} `{Platform W}
    (cfg : Config) (w : W) :
  exists rest : list Event,
    events (work cfg w) = events (addAppsToPool cfg w) ++ rest
    /\ deleted (events (addAppsToPool cfg w)) = []
    /\ deploys rest = O.
Proof.
  destruct (work_split cfg w) as (err & w1 & ta & Ea & Hw).
  destruct (add_facts cfg w) as (_ & Hd & _). rewrite Ea in *.
  destruct err as [e|]; rewrite Hw; unfold events; simpl.
  - eexists. split; [reflexivity|]. split; [exact Hd|reflexivity].
  - eexists. split; [reflexivity|]. split; [exact Hd|].
    now destruct (removal_facts cfg w1) as (_ & Hp & _).
Qed.

(** X3.  A cycle makes one listing call when the addition phase returns
    an error and two when it returns nil, for every configuration and every
    platform; it never makes more than two. *)
Theorem cycle_listing_calls {W : Type} `{Platform W} (cfg : Config) (w : W) :
  listings (events (work cfg w))
  = match result (addAppsToPool cfg w) with
    | Ret None => 2%nat
    | _ => 1%nat
    end.
Proof.
  destruct (work_split cfg w) as (err & w1 & ta & Ea & Hw).
  destruct (add_facts cfg w) as (Hl & _). rewrite Ea in *.
  unfold events in Hl. simpl in Hl.
  destruct err as [e|]; rewrite Hw; unfold result, events; simpl;
    rewrite listings_app, Hl.
  - reflexivity.
  - destruct (removal_facts cfg w1) as (Hl2 & _). unfold events in Hl2.
    now rewrite Hl2.
Qed.

(** X4.  [removeOutdatedApps] hands to [DeleteApp] only instances that
    its own listing returned as outdated: a prefix of that list, of length
    at most [BatchSize], so never an instance of the current version that
    is not also listed as outdated, and never the same listed instance
    twice. *)
Theorem removal_targets {W : Type} `{Platform W} (cfg : Config) (w : W) :
  let oth := outdated (fst (AllIdledApps w)) in
  let del := deleted (events (removeOutdatedApps cfg w)) in
  (exists k : nat, (k <= Z.to_nat (BatchSize cfg))%nat /\ del = firstn k oth)
  /\ (forall a, In a del -> In a oth)
  /\ (NoDup oth -> NoDup del).
Proof.
  intros oth del.
  assert (Hk : exists k : nat,
             (k <= Z.to_nat (BatchSize cfg))%nat /\ del = firstn k oth).
  { destruct (removal_facts cfg w) as (_ & _ & _ & k & Hk & Hdel).
    destruct (removal_phase_events cfg w) as (l & El & Hl & _).
    rewrite El, deleted_app, Hl, app_nil_r in Hdel.
    exists k. split; [exact Hk|exact Hdel]. }
  split; [exact Hk|]. destruct Hk as (k & _ & ->). split.
  - intros a. apply firstn_incl.
  - apply firstn_NoDup.
Qed.

(** X5.  A cycle either returns or panics on the slice expression of the
    removal phase, and it panics exactly when the batch size is negative,
    the addition phase returned nil and the listing of the removal phase
    succeeded.  With a non-negative batch size a cycle always returns,
    whatever errors the platform answers with. *)
Theorem cycle_panics_iff {W : Type} `{Platform W} (cfg : Config) (w : W) :
  (result (work cfg w) = Ret tt
   \/ result (work cfg w) = Panic "slice bounds out of range")
  /\ (result (work cfg w) = Panic "slice bounds out of range"
      <-> BatchSize cfg < 0
          /\ result (addAppsToPool cfg w) = Ret None
          /\ snd (fst (AllIdledApps (world (addAppsToPool cfg w)))) = None).
Proof.
  destruct (work_split cfg w) as (err & w1 & ta & Ea & Hw).
  rewrite Ea. unfold result at 3, world at 1. simpl.
  destruct err as [e|].
  - rewrite Hw. unfold result. simpl. split; [now left|].
    split; [discriminate|]. intros (_ & Hc & _). discriminate.
  - rewrite Hw. unfold result at 1 2 3. simpl.
    destruct (AllIdledApps w1) as [[[cur oth] [e|]] w2] eqn:E; simpl.
    + rewrite (removal_phase_failed cfg w1 w2 cur oth e E). unfold result. simpl.
      split; [now left|]. split; [discriminate|]. intros (_ & _ & Hc).
      discriminate.
    + destruct (Z.ltb_spec (BatchSize cfg) 0) as [Hneg|Hb].
      * unfold removal_phase, bind.
        rewrite (remove_negative_batch cfg w1 w2 cur oth E Hneg).
        unfold result. simpl. split; [now right|]. split; auto.
      * destruct (removal_phase_ok cfg w1 w2 cur oth E Hb) as (w3 & t & Er & _).
        rewrite Er. unfold result. simpl. split; [now left|].
        split; [discriminate|]. intros (Hc & _). lia.
Qed.

(** ** Further properties of the scheduler loop *)

Lemma cycle_is_loop_event (t : list Event) :
  Forall (fun e => is_cycle_event e = true) t ->
  Forall (fun e => is_loop_event e = true) t.
Proof.
  apply Forall_impl. intros e He. destruct e; simpl in *; congruence.
Qed.

Section LoopFacts.

Context {W : Type} `{Platform W}.

(** One turn of the loop on a tick. *)
Lemma loop_tick (cfg : Config) (rest : list Signal) (w : W) :
  loop cfg (Tick :: rest) w
  = match result (work cfg w) with
    | Ret _ =>
        (result (loop cfg rest (world (work cfg w))),
         world (loop cfg rest (world (work cfg w))),
         Select Tick
           :: events (work cfg w)
           ++ events (loop cfg rest (world (work cfg w))))
    | Panic msg => (Panic msg, world (work cfg w),
                    Select Tick :: events (work cfg w))
    | Blocked => (Blocked, world (work cfg w),
                  Select Tick :: events (work cfg w))
    end.
Proof.
  simpl. unfold bind, emit.
  destruct (work cfg w) as [[[[]|msg|] w1] t1]; unfold result, world, events;
    simpl; try reflexivity.
  destruct (loop cfg rest w1) as [[o2 w2] t2]. reflexivity.
Qed.

(** The loop emits wake-ups and events of cycles only, and the one value
    it ever returns is nil. *)
Lemma loop_facts (cfg : Config) (sel : list Signal) :
  forall w : W,
    Forall (fun e => is_loop_event e = true) (events (loop cfg sel w))
    /\ forall e, result (loop cfg sel w) <> Ret (Some e).
Proof.
  induction sel as [|[|] rest IH]; intros w.
  - simpl. split; [constructor|discriminate].
  - rewrite loop_tick.
    pose proof (cycle_is_loop_event _ (work_cycle_events cfg w)) as Hw.
    destruct (work cfg w) as [[[[]|msg|] w1] t1]; unfold result, world, events in *;
      simpl in *.
    + destruct (IH w1) as (Hf & Hr). split; [|exact Hr].
      constructor; [reflexivity|]. apply Forall_app. split; assumption.
    + split; [constructor; [reflexivity|assumption]|discriminate].
    + split; [constructor; [reflexivity|assumption]|discriminate].
  - simpl. unfold bind, emit, ret, result, events. simpl.
    split; [repeat constructor|discriminate].
Qed.

(** The first cycle followed by the loop: the body that [Start] runs
    under its deferred [t.Stop()]. *)
Lemma body_facts (cfg : Config) (sel : list Signal) (w : W) :
  Forall (fun e => is_loop_event e = true)
    (events (bind (work cfg) (fun _ => loop cfg sel) w))
  /\ forall e,
       result (bind (work cfg) (fun _ => loop cfg sel) w) <> Ret (Some e).
Proof.
  pose proof (cycle_is_loop_event _ (work_cycle_events cfg w)) as Hw.
  unfold bind.
  destruct (work cfg w) as [[[[]|msg|] w1] t1]; unfold result, events in *;
    simpl in *.
  - destruct (loop_facts cfg sel w1) as (Hf & Hr).
    destruct (loop cfg sel w1) as [[o2 w2] t2]. unfold result, events in *.
    simpl in *. split; [|exact Hr]. apply Forall_app. split; assumption.
  - split; [assumption|discriminate].
  - split; [assumption|discriminate].
Qed.

(** [Start] when the template directory does not exist. *)
Lemma start_refuses (cfg : Config) (sel : list Signal) (w w0 : W)
    (serr : option StatErr) :
  os_Stat (TemplateDir cfg) w = (serr, w0) ->
  IsNotExist serr = true ->
  Start cfg sel w
  = (Ret (Some (not_exist_msg (TemplateDir cfg))), w0,
     [LogInfo "Starting worker"; Stat (TemplateDir cfg)]).
Proof.
  intros Es Hne. unfold Start, bind, emit, call. rewrite Es, Hne. reflexivity.
Qed.

(** [Start] with a check interval that is not positive. *)
Lemma start_no_ticker (cfg : Config) (sel : list Signal) (w w0 : W)
    (serr : option StatErr) :
  os_Stat (TemplateDir cfg) w = (serr, w0) ->
  IsNotExist serr = false ->
  CheckInterval cfg <= 0 ->
  Start cfg sel w
  = (Panic "non-positive interval for NewTicker", w0,
     [LogInfo "Starting worker"; Stat (TemplateDir cfg)]).
Proof.
  intros Es Hne Hd. unfold Start, NewTicker.
  destruct (Z.leb_spec (CheckInterval cfg) 0) as [_|Hgt]; [|lia].
  unfold bind, emit, call, panic. rewrite Es, Hne. reflexivity.
Qed.

End LoopFacts.

(** X6.  [Start] leaks no ticker.  When it returns or panics, it has
    stopped the ticker it created, if it created one; a ticker is live only
    while the loop is still waiting on its [select].  No run creates more
    than one ticker. *)
Theorem ticker_released {W : Type} `{Platform W}
    (cfg : Config) (sel : list Signal) (w : W) :
  let ev := events (Start cfg sel w) in
  (count_ev is_ticker_new ev <= 1)%nat
  /\ match result (Start cfg sel w) with
     | Blocked =>
         count_ev is_ticker_new ev = 1%nat /\ count_ev is_ticker_stop ev = O
     | _ => count_ev is_ticker_stop ev = count_ev is_ticker_new ev
     end.
Proof.
  destruct (os_Stat (TemplateDir cfg) w) as [serr w0] eqn:Es.
  destruct (IsNotExist serr) eqn:Hne.
  { rewrite (start_refuses cfg sel w w0 serr Es Hne).
    unfold result, events, count_ev. simpl. split; [lia|reflexivity]. }
  destruct (Z.leb_spec (CheckInterval cfg) 0) as [Hd|Hd].
  { rewrite (start_no_ticker cfg sel w w0 serr Es Hne Hd).
    unfold result, events, count_ev. simpl. split; [lia|reflexivity]. }
  rewrite (start_proceeds cfg sel w w0 serr Es Hne Hd).
  destruct (body_facts cfg sel w0) as (Hf & _).
  assert (Hn : forall t, Forall (fun e => is_loop_event e = true) t ->
                 count_ev is_ticker_new t = O /\ count_ev is_ticker_stop t = O).
  { intros t Ht. split; apply (count_ev_none _ is_loop_event); try exact Ht;
      intros e He; destruct e; simpl in *; congruence. }
  unfold defer.
  destruct (bind (work cfg) (fun _ => loop cfg sel) w0) as [[o w1] t].
  unfold events in Hf. simpl in Hf. destruct (Hn t Hf) as (Hn1 & Hn2).
  destruct o as [r|msg|]; unfold result, events; simpl;
    rewrite ?count_ev_app, ?Hn1, ?Hn2;
    change (count_ev is_ticker_new (LogInfo "Starting worker"
              :: Stat (TemplateDir cfg) :: TickerNew (CheckInterval cfg) :: ?l))
      with (S (count_ev is_ticker_new l));
    change (count_ev is_ticker_stop (LogInfo "Starting worker"
              :: Stat (TemplateDir cfg) :: TickerNew (CheckInterval cfg) :: ?l))
      with (count_ev is_ticker_stop l);
    rewrite ?count_ev_app, ?Hn1, ?Hn2; unfold count_ev; simpl;
    split; try lia; try reflexivity; split; reflexivity.
Qed.

(** X7.  With the template directory in place but a check interval of
    zero or less, [Start] panics in [time.NewTicker]: after the start-up
    log line and the [os.Stat] call, before any cycle, with no call to the
    platform. *)
Theorem start_bad_interval {W : Type} `{Platform W}
    (cfg : Config) (sel : list Signal) (w w0 : W) (serr : option StatErr) :
  os_Stat (TemplateDir cfg) w = (serr, w0) ->
  IsNotExist serr = false ->
  CheckInterval cfg <= 0 ->
  result (Start cfg sel w) = Panic "non-positive interval for NewTicker"
  /\ events (Start cfg sel w)
     = [LogInfo "Starting worker"; Stat (TemplateDir cfg)]
  /\ filter is_remote (events (Start cfg sel w)) = [].
Proof.
  intros Es Hne Hd. rewrite (start_no_ticker cfg sel w w0 serr Es Hne Hd).
  repeat split.
Qed.

(** A check interval of zero on a platform that would answer. *)
Lemma start_bad_interval_witness :
  result (Start {| HerokuAPIKey := "key"; BatchSize := 2; PoolSize := 5;
                   CheckInterval := 0; TemplateDir := "template" |}
            [Tick; Done] w_stale)
  = Panic "non-positive interval for NewTicker".
Proof.
  refine (proj1 (start_bad_interval
                   {| HerokuAPIKey := "key"; BatchSize := 2; PoolSize := 5;
                      CheckInterval := 0; TemplateDir := "template" |}
                   [Tick; Done] w_stale w_stale None _ _ _)).
  - reflexivity.
  - reflexivity.
  - vm_compute. discriminate.
Defined.

(** X8.  The only error [Start] ever returns is the one about the
    template directory: if [Start] returns an error, [os.Stat] reported the
    directory as missing, the error is that message, and nothing else was
    done.  Errors of the cycles are never passed on. *)
Theorem start_only_template_error {W : Type} `{Platform W}
    (cfg : Config) (sel : list Signal) (w : W) (e : error) :
  result (Start cfg sel w) = Ret (Some e) ->
  fst (os_Stat (TemplateDir cfg) w) = Some ErrNotExist
  /\ e = not_exist_msg (TemplateDir cfg)
  /\ events (Start cfg sel w)
     = [LogInfo "Starting worker"; Stat (TemplateDir cfg)].
Proof.
  intros Hr.
  destruct (os_Stat (TemplateDir cfg) w) as [serr w0] eqn:Es.
  destruct (IsNotExist serr) eqn:Hne.
  - rewrite (start_refuses cfg sel w w0 serr Es Hne) in *.
    unfold result in Hr. simpl in Hr. injection Hr as Hr.
    destruct serr as [[| |msg]|]; try discriminate. simpl.
    repeat split; congruence.
  - exfalso. destruct (Z.leb_spec (CheckInterval cfg) 0) as [Hd|Hd].
    + rewrite (start_no_ticker cfg sel w w0 serr Es Hne Hd) in Hr. discriminate.
    + rewrite (start_proceeds cfg sel w w0 serr Es Hne Hd) in Hr.
      destruct (body_facts cfg sel w0) as (_ & Hb). unfold defer in Hr.
      destruct (bind (work cfg) (fun _ => loop cfg sel) w0) as [[o w1] t].
      unfold result in *. simpl in *.
      destruct o as [r|msg|]; simpl in Hr; try discriminate.
      exact (Hb e Hr).
Qed.

(** The template directory is missing. *)
Lemma start_only_template_error_witness :
  fst (os_Stat (TemplateDir cfg0) w_missing) = Some ErrNotExist.
Proof.
  refine (proj1 (start_only_template_error cfg0 [Tick; Done] w_missing
                   "template directory template does not exist" _)).
  reflexivity.
Defined.

Section Rate.

Context {W : Type} `{Platform W}.

(** Per cycle: one or two listing calls, at most [BatchSize] deploys and
    at most [BatchSize] deletions. *)
Lemma work_bounds (cfg : Config) (w : W) :
  let ev := events (work cfg w) in
  (1 <= listings ev <= 2)%nat
  /\ (deploys ev <= Z.to_nat (BatchSize cfg))%nat
  /\ (List.length (deleted ev) <= Z.to_nat (BatchSize cfg))%nat.
Proof.
  destruct (work_split cfg w) as (err & w1 & ta & Ea & Hw).
  destruct (add_facts cfg w) as (Hl & Hd & Hp & _). rewrite Ea in Hl, Hd, Hp.
  unfold events in Hl, Hd, Hp. simpl in Hl, Hd, Hp.
  destruct err as [e|]; rewrite Hw; unfold events; simpl;
    rewrite listings_app, deploys_app, deleted_app, Hl, Hd; simpl.
  - unfold listings at 1 2, deploys at 2. simpl. lia.
  - destruct (removal_facts cfg w1) as (Hl2 & Hp2 & _ & k & Hk & Hdel).
    unfold events in Hl2, Hp2, Hdel. rewrite Hl2, Hp2, Hdel.
    pose proof (firstn_le_length k (outdated (fst (AllIdledApps w1)))). lia.
Qed.

(** The loop over [k] ticks and then [Done]: [k] cycles. *)
Lemma loop_bounds (cfg : Config) (rest : list Signal) (k : nat) :
  0 <= BatchSize cfg ->
  forall w : W,
    let ev := events (loop cfg (repeat Tick k ++ Done :: rest) w) in
    (k <= listings ev <= 2 * k)%nat
    /\ (deploys ev <= k * Z.to_nat (BatchSize cfg))%nat
    /\ (List.length (deleted ev) <= k * Z.to_nat (BatchSize cfg))%nat.
Proof.
  intros Hb. induction k as [|k IH]; intros w.
  - simpl. unfold bind, emit, ret, events. simpl.
    unfold listings, deploys. simpl. lia.
  - change (repeat Tick (S k) ++ Done :: rest)
      with (Tick :: (repeat Tick k ++ Done :: rest)).
    rewrite loop_tick.
    destruct (work_returns cfg w Hb) as (w1 & t1 & Ew & _).
    pose proof (work_bounds cfg w) as Hwb. rewrite Ew in *.
    unfold result, world, events in *. simpl in Hwb |- *.
    specialize (IH w1). simpl in IH.
    destruct (loop cfg (repeat Tick k ++ Done :: rest) w1) as [[o2 w2] t2].
    simpl in *.
    change (Select Tick :: ListApps :: t1 ++ t2)
      with ([Select Tick] ++ (ListApps :: t1) ++ t2).
    rewrite !listings_app, !deploys_app, !deleted_app, !length_app.
    change (listings [Select Tick]) with O.
    change (deploys [Select Tick]) with O.
    change (List.length (deleted [Select Tick])) with O.
    lia.
Qed.

End Rate.

(** X9.  With the template directory in place, a positive check interval
    and a non-negative batch size, a run of [Start] over [k] ticks and then
    [Done] makes one cycle at start-up and one per tick, failed cycles
    included: between [k + 1] and [2 (k + 1)] listing calls, at most
    [(k + 1) * BatchSize] deploys and at most [(k + 1) * BatchSize]
    deletions. *)
Theorem start_call_rate {W : Type} `{Platform W}
    (cfg : Config) (w w0 : W) (serr : option StatErr)
    (k : nat) (rest : list Signal) :
  os_Stat (TemplateDir cfg) w = (serr, w0) ->
  IsNotExist serr = false ->
  0 < CheckInterval cfg ->
  0 <= BatchSize cfg ->
  let ev := events (Start cfg (repeat Tick k ++ Done :: rest) w) in
  (k + 1 <= listings ev <= 2 * (k + 1))%nat
  /\ (deploys ev <= (k + 1) * Z.to_nat (BatchSize cfg))%nat
  /\ (List.length (deleted ev) <= (k + 1) * Z.to_nat (BatchSize cfg))%nat.
Proof.
  intros Es Hne Hd Hb.
  rewrite (start_proceeds cfg _ w w0 serr Es Hne Hd).
  destruct (work_returns cfg w0 Hb) as (w1 & t1 & Ew & _).
  pose proof (work_bounds cfg w0) as Hwb. rewrite Ew in Hwb.
  pose proof (loop_bounds cfg rest k Hb w1) as Hlb.
  destruct (loop_shutdown cfg rest k Hb w1) as (w2 & s & t2 & El & _).
  rewrite El in Hlb.
  unfold defer, bind. rewrite Ew, El. unfold events in *. simpl in Hwb, Hlb |- *.
  rewrite !listings_cons, !deploys_cons, !listings_app, !deploys_app,
    !deleted_app, !length_app, !listings_cons, !deploys_cons in *.
  simpl in *. unfold listings, deploys in *. simpl in *. lia.
Qed.

(** One tick and then [Done] on a full pool with outdated instances. *)
Lemma start_call_rate_witness :
  (2 <= listings (events (Start cfg0 [Tick; Done] w_stale)) <= 4)%nat.
Proof.
  assert (Es : os_Stat (TemplateDir cfg0) w_stale = (None, w_stale))
    by reflexivity.
  assert (Hd : 0 < CheckInterval cfg0) by reflexivity.
  assert (Hb : 0 <= BatchSize cfg0) by (vm_compute; discriminate).
  exact (proj1 (start_call_rate cfg0 w_stale w_stale None 1 [] Es eq_refl Hd Hb)).
Defined.

(** ** Where the error of the addition phase comes from *)

(** X10.  An error returned by [addAppsToPool] is either the error of its
    listing call, in which case no deploy was started, or, after a
    successful listing, the error [g.Run()] returned for a group of at
    least one deploy.  So [addAppsToPool] never fails after a successful
    listing without having started a deploy. *)
Theorem add_error_origin {W : Type} `{Platform W}
    (cfg : Config) (w : W) (e : error) :
  result (addAppsToPool cfg w) = Ret (Some e) ->
  let ev := events (addAppsToPool cfg w) in
  (snd (fst (AllIdledApps w)) = Some e /\ deploys ev = O)
  \/ (snd (fst (AllIdledApps w)) = None
      /\ (0 < deploys ev)%nat
      /\ fst (runDeploys (deploys ev) (snd (AllIdledApps w))) = Some e).
Proof.
  intros Hr ev. subst ev.
  destruct (AllIdledApps w) as [[[cur oth] [e'|]] w1] eqn:E; simpl.
  - left. rewrite (add_listing_failed cfg w w1 cur oth e' E) in *.
    unfold result in Hr. simpl in Hr. split; [congruence|reflexivity].
  - right. split; [reflexivity|]. revert Hr.
    unfold addAppsToPool, bind, call, emit. rewrite E.
    rewrite deploy_group_total.
    destruct (repeat DeployActor
                (Z.to_nat (add_count (PoolSize cfg) (BatchSize cfg) (len cur))))
      as [|a g]; [discriminate|].
    unfold Group_Run.
    destruct (runDeploys (List.length (a :: g)) w1) as [err w2] eqn:Er.
    assert (Hn : deploys (map (fun _ : Actor => Deploy) (a :: g))
                 = List.length (a :: g)) by apply deploys_started.
    destruct err as [e'|]; unfold result, events, ret; simpl;
      intros Hr; try discriminate.
    rewrite app_nil_r.
    change (deploys (ListApps :: LogNum ?n ?m :: Deploy :: ?l))
      with (deploys (Deploy :: l)).
    simpl in Hn. rewrite Hn. split; [lia|]. simpl in Er. rewrite Er.
    simpl. congruence.
Qed.

(** A pool two short on a platform whose deploys fail. *)
Lemma add_error_origin_witness :
  fst (runDeploys 2
         (snd (AllIdledApps
                 {| stat_err := None; listing := [(three, [], None)];
                    delete_err := never_fails;
                    run_err := Some "deploy failed" |})))
  = Some "deploy failed".
Proof.
  assert (He : result (addAppsToPool cfg0
                 {| stat_err := None; listing := [(three, [], None)];
                    delete_err := never_fails;
                    run_err := Some "deploy failed" |})
               = Ret (Some "deploy failed")) by reflexivity.
  destruct (add_error_origin cfg0 _ "deploy failed" He)
    as [[Hc _]|(_ & _ & Hr)].
  - discriminate Hc.
  - exact Hr.
Defined.

(** ** Further properties of the deploy client *)

(** X11.  The client ends with status 0 or 1, and with 0 exactly when both
    variables are set and the deploy returns no error.  With status 1 it
    has printed nothing and logged one entry; when a variable is missing
    that entry is the request for the two variables, whatever the deployer
    would do. *)
Theorem main_status (getenv : string -> string)
    (Deploy : string -> string -> string * option error) :
  let token := getenv "HEROKU_API_TOKEN" in
  let target := getenv "HEROKU_APP" in
  let p := main getenv Deploy in
  (status p = 0 \/ status p = 1)
  /\ (status p = 0
      <-> token <> "" /\ target <> "" /\ snd (Deploy token target) = None)
  /\ (status p = 1 -> stdout p = "" /\ exists msg, logged p = [msg])
  /\ (token = "" \/ target = "" ->
      p = Fatal "Provide HEROKU_API_TOKEN and HEROKU_APP").
Proof.
  intros token target p. unfold p, main. fold token target.
  destruct (String.eqb_spec token "") as [Ht|Ht];
    destruct (String.eqb_spec target "") as [Ha|Ha]; simpl.
  - repeat split; try (now right); try discriminate; eauto.
    intros (Hc & _). contradiction.
  - repeat split; try (now right); try discriminate; eauto.
    intros (Hc & _). contradiction.
  - repeat split; try (now right); try discriminate; eauto.
    intros (_ & Hc & _). contradiction.
  - destruct (Deploy token target) as [url [e|]]; simpl.
    + repeat split; try (now right); try discriminate; eauto.
      * intros (_ & _ & Hc). discriminate.
      * intros [Hc|Hc]; contradiction.
    + repeat split; try (now left); try discriminate; auto.
      intros [Hc|Hc]; contradiction.
Qed.

(** ** After the shutdown signal *)

Lemma loop_after_done {W : Type} `{Platform W}
    (cfg : Config) (rest : list Signal) (k : nat) :
  forall w : W,
    loop cfg (repeat Tick k ++ Done :: rest) w
    = loop cfg (repeat Tick k ++ [Done]) w.
Proof.
  induction k as [|k IH]; intros w.
  - reflexivity.
  - change (repeat Tick (S k) ++ Done :: rest)
      with (Tick :: (repeat Tick k ++ Done :: rest)).
    change (repeat Tick (S k) ++ [Done])
      with (Tick :: (repeat Tick k ++ [Done])).
    rewrite !loop_tick. destruct (result (work cfg w)); try reflexivity.
    now rewrite IH.
Qed.

(** X12.  Once the [select] has woken on [Done], [Start] runs no further
    cycle: whatever signals would have followed, the run is the same as if
    [Done] had been the last one, for every configuration and platform. *)
Theorem shutdown_ends_run {W : Type} `{Platform W}
    (cfg : Config) (rest : list Signal) (k : nat) (w : W) :
  Start cfg (repeat Tick k ++ Done :: rest) w
  = Start cfg (repeat Tick k ++ [Done]) w.
Proof.
  unfold Start, defer, bind.
  destruct (emit (LogInfo "Starting worker") w) as [[o1 w1] t1].
  destruct o1 as [u|msg|]; try reflexivity.
  destruct (call (Stat (TemplateDir cfg)) (os_Stat (TemplateDir cfg)) w1)
    as [[o2 w2] t2].
  destruct o2 as [serr|msg|]; try reflexivity.
  destruct (IsNotExist serr); [reflexivity|].
  destruct (NewTicker (CheckInterval cfg) w2) as [[o3 w3] t3].
  destruct o3 as [u'|msg|]; try reflexivity.
  destruct (work cfg w3) as [[o4 w4] t4].
  destruct o4 as [u''|msg|]; try reflexivity.
  now rewrite loop_after_done.
Qed.

(** ** A batch of concurrent deploys *)

Import RunGroup.



